(** * geogrid_to_nc: a shallow embedding of [geogrid_to_nc.c]

    The program converts a WRF geogrid tile to NetCDF4 and prints per-level
    statistics.  This development embeds [print_statistics] and [main] and
    states the properties of the specification over that embedding.

    Conventions of the embedding:
    - a C [int] is a [Z] together with the 32-bit two's-complement reduction
      [Int.wrap] applied after every arithmetic operation.  Signed overflow
      is undefined in C; the embedding takes the wrapped result, which is
      what the usual compilers produce;
    - a C [double] is a primitive binary64 float; a C [float] sample is
      promoted to [double] before it is compared or added (the promotion is
      exact), so samples are carried as binary64 values;
    - the buffer [data] is a function from subscripts to samples: a read
      returns what the memory holds at that subscript, inside the buffer or
      not;
    - the external collaborators ([read_geogrid], the netCDF library) are
      functions on an abstract world state, supplied as an [Externals]
      instance; [malloc] is taken to succeed;
    - what the program does (stdout, external calls) is an explicit trace of
      [event]s, threaded by a small state-and-exit monad. *)

From Stdlib Require Import ZArith List String Ascii Bool Lia.
From Stdlib Require Import Floats.
Import ListNotations.

Local Open Scope Z_scope.

(** ** C [int] arithmetic *)

Module Int.

Definition half_modulus : Z := 2147483648.
Definition modulus : Z := 4294967296.
Definition max_signed : Z := 2147483647.
Definition min_signed : Z := -2147483648.

(** Reduction of a mathematical integer to the 32-bit signed range. *)
Definition wrap (z : Z) : Z := (z + half_modulus) mod modulus - half_modulus.

Definition add (a b : Z) : Z := wrap (a + b).
Definition mul (a b : Z) : Z := wrap (a * b).

Definition in_range (z : Z) : Prop := min_signed <= z <= max_signed.

End Int.

(** ** C [double] values *)

Definition double := PrimFloat.float.

(** [(double) z] for an [int] [z]; exact on the whole 32-bit range. *)
Definition double_of_int (z : Z) : double :=
  if z <? 0 then PrimFloat.opp (PrimFloat.of_uint63 (Uint63.of_Z (- z)))
  else PrimFloat.of_uint63 (Uint63.of_Z z).

(** [a > b] on doubles. *)
Definition gtb (a b : double) : bool := PrimFloat.ltb b a.

(** [(size_t) z] for an [int] [z] on an LP64 platform. *)
Definition size_t_modulus : Z := 18446744073709551616.
Definition size_of_int (z : Z) : Z := z mod size_t_modulus.
Definition sizeof_float : Z := 4.

(** ** Constants of [netcdf.h] used by the program *)

Definition NC_NOERR : Z := 0.
Definition NC_WRITE : Z := 1.
Definition NC_NETCDF4 : Z := 4096.
Definition NC_FLOAT : Z := 5.
Definition NC_NOSHUFFLE : Z := 0.

(** The program's own byte-order codes. *)
Definition BIG_ENDIAN : Z := 0.
Definition LITTLE_ENDIAN : Z := 1.

(** ** Observable behaviour *)

Inductive printf_arg : Type :=
| AInt (i : Z)
| ADbl (d : double)
| AStr (s : string).

Definition nl : string := String (ascii_of_nat 10) EmptyString.
Definition tab : string := String (ascii_of_nat 9) EmptyString.
Definition dq : string := String (ascii_of_nat 34) EmptyString.

(** Arguments of the call to [read_geogrid]: the values the pointers refer
    to at the time of the call. *)
Record rg_args : Type := RgArgs {
  rg_fname : string;
  rg_fnamelen : Z;
  rg_array : Z -> double;
  rg_nx : Z;
  rg_ny : Z;
  rg_nz : Z;
  rg_issigned : Z;
  rg_endianness : Z;
  rg_scale : double;
  rg_wsize : Z;
  rg_status : Z
}.

(** What [read_geogrid] leaves behind: the buffer and [status].  The scalar
    arguments are inputs (see the comments at the call) and are taken to be
    left as they were. *)
Record rg_result : Type := RgResult {
  rg_array_after : Z -> double;
  rg_status_after : Z
}.

(** Calls into the netCDF library, with the values of their input
    arguments.  [Nc_def_var] carries the three cells of [dimids]; the
    library reads the first [ndims] of them. *)
Inductive nc_call : Type :=
| Nc_create (path : string) (cmode : Z)
| Nc_def_dim (ncid : Z) (name : string) (len : Z)
| Nc_def_var (ncid : Z) (name : string) (xtype : Z) (ndims : Z) (dimids : list Z)
| Nc_def_var_deflate (ncid varid shuffle deflate deflate_level : Z)
| Nc_enddef (ncid : Z)
| Nc_put_var (ncid varid : Z) (op : Z -> double)
| Nc_close (ncid : Z).

(** The library's answer: the status it returns and, for calls with an
    output pointer, the id it stored there ([None]: nothing was stored). *)
Record nc_reply : Type := NcReply {
  nc_status : Z;
  nc_out : option Z
}.

Inductive event : Type :=
| EPrintf (fmt : string) (args : list printf_arg)
| EMalloc (size : Z)
| EReadGeogrid (args : rg_args) (res : rg_result)
| ENc (call : nc_call) (reply : nc_reply)
| EFree.

(** ** External collaborators *)

Class Externals (W : Type) : Type := {
  read_geogrid : rg_args -> W -> rg_result * W;
  nc_library : nc_call -> W -> nc_reply * W;
  nc_strerror : Z -> string
}.

(** ** Counted loops: [for (i = 0; i < n; i++) body] *)

(** [fuel] turns of the loop from the counter value [i]. *)
Fixpoint for_from {S : Type} (fuel : nat) (i : Z) (body : Z -> S -> S) (s : S) : S :=
  match fuel with
  | O => s
  | Datatypes.S fuel' => for_from fuel' (Int.add i 1) body (body i s)
  end.

(** The loop runs [n] times when [0 < n] and not at all otherwise. *)
Definition for_lt {S : Type} (n : Z) (body : Z -> S -> S) (s : S) : S :=
  for_from (Z.to_nat n) 0 body s.

(** ** [print_statistics] *)

(** The subscript of [data[k * nx * ny + j * nx + i]], in [int] arithmetic. *)
Definition sample_index (nx ny k j i : Z) : Z :=
  Int.add (Int.add (Int.mul (Int.mul k nx) ny) (Int.mul j nx)) i.

(** The three accumulators of one level. *)
Record accum : Type := Accum { acc_min : double; acc_max : double; acc_avg : double }.

Definition accum_init : accum := Accum 0%float 0%float 0%float.

(** Body of the innermost loop for one sample [d]. *)
Definition accumulate (d : double) (a : accum) : accum :=
  let min' := if PrimFloat.ltb d (acc_min a) then d else acc_min a in
  let max' := if gtb d (acc_max a) then d else acc_max a in
  Accum min' max' (PrimFloat.add (acc_avg a) d).

(** The two inner loops of one level [k]. *)
Definition level_accum (data : Z -> double) (nx ny k : Z) : accum :=
  for_lt ny (fun j a =>
    for_lt nx (fun i a => accumulate (data (sample_index nx ny k j i)) a) a)
    accum_init.

Definition stats_format : string := "%i %lf %lf %lf" ++ nl.

(** The [printf] that ends a level: level number, mean, min, max. *)
Definition stats_line (nx ny k : Z) (a : accum) : event :=
  EPrintf stats_format
    [AInt (Int.add k 1);
     ADbl (PrimFloat.div (acc_avg a) (double_of_int (Int.mul nx ny)));
     ADbl (acc_min a);
     ADbl (acc_max a)].

(** [print_statistics data nx ny nz] appends one line per level to what has
    been printed so far. *)
Definition print_statistics (data : Z -> double) (nx ny nz : Z)
    (out : list event) : list event :=
  for_lt nz (fun k out => out ++ [stats_line nx ny k (level_accum data nx ny k)]) out.

(** ** The state-and-exit monad of the program *)

Record state (W : Type) : Type := State { world : W; trace : list event }.
Arguments State {W} _ _.
Arguments world {W} _.
Arguments trace {W} _.

(** A computation either goes on with a value or has called [exit]. *)
Inductive result (A : Type) : Type :=
| Done (a : A)
| Exited (code : Z).
Arguments Done {A} _.
Arguments Exited {A} _.

Definition M (W A : Type) : Type := state W -> result A * state W.

Definition ret {W A : Type} (a : A) : M W A := fun s => (Done a, s).

Definition bind {W A B : Type} (m : M W A) (f : A -> M W B) : M W B :=
  fun s =>
    let (r, s') := m s in
    match r with
    | Done a => f a s'
    | Exited c => (Exited c, s')
    end.

Notation "x <- m ;; k" := (bind m (fun x => k))
  (at level 61, m at next level, right associativity).
Notation "m ;; k" := (bind m (fun _ => k))
  (at level 61, right associativity).

Definition emit {W : Type} (e : event) : M W unit :=
  fun s => (Done tt, State (world s) (trace s ++ [e])).

Definition printf {W : Type} (fmt : string) (args : list printf_arg) : M W unit :=
  emit (EPrintf fmt args).

Definition exit {W A : Type} (code : Z) : M W A := fun s => (Exited code, s).

Definition when {W : Type} (b : bool) (m : M W unit) : M W unit :=
  if b then m else ret tt.

Section Program.

Context {W : Type} {ext : Externals W}.

Definition call_read_geogrid (args : rg_args) : M W rg_result :=
  fun s =>
    let (r, w) := read_geogrid args (world s) in
    (Done r, State w (trace s ++ [EReadGeogrid args r])).

Definition call_nc (c : nc_call) : M W nc_reply :=
  fun s =>
    let (r, w) := nc_library c (world s) in
    (Done r, State w (trace s ++ [ENc c r])).

(** The line the [NC] macro prints for a step whose text is [tst]. *)
Definition nc_report (tst : string) (status : Z) : event :=
  if status =? NC_NOERR
  then EPrintf ("[OK] %s" ++ nl) [AStr tst]
  else EPrintf ("[XX] %s: %s" ++ nl) [AStr tst; AStr (nc_strerror status)].

(** The [NC] macro: run the step, print its outcome, go on.  The value is
    what the step stored through its output pointer, if anything. *)
Definition NC (tst : string) (c : nc_call) : M W (option Z) :=
  r <- call_nc c ;;
  emit (nc_report tst (nc_status r)) ;;
  ret (nc_out r).

(** An output variable after a step: the stored id, or what it held. *)
Definition stored (out : option Z) (old : Z) : Z :=
  match out with Some v => v | None => old end.

(** ** [usage] *)

Definition line (s : string) : string := s ++ nl.

Definition usage_text : list string :=
  [ line " Usage: write_geog";
    line "    --input/-i         inputfile (geogrid)";
    line "    --output/-o        outputfile (netcdf)";
    line "    --nx/-x            Grid size NX";
    line "    --ny/-y            Grid size NY";
    line "    --nz/-z            Grid size NZ";
    line "    --wsize/-w         Word size";
    line "    --scale/-s         Scale factor";
    line "    --signed/-m        Signed data (default unsigned)";
    line "    --littleendian/-l  Endianness (default big endian)";
    line "    --verbose";
    line (nl ++ "This program converts a WRF geogrid file (which is actually an ENVI file) to NetCDF4.");
    line "The WRF 'index' file is not parsed, instead all settings should be provided via the commandline options." ].

Fixpoint print_all (lines : list string) : M W unit :=
  match lines with
  | [] => ret tt
  | l :: rest => printf l [] ;; print_all rest
  end.

Definition usage {A : Type} : M W A :=
  print_all usage_text ;; exit (-1).

(** ** The local variables of [main] set from the command line *)

Record locals : Type := Locals {
  inputfile : string;
  outputfile : string;
  nx : Z;
  ny : Z;
  nz : Z;
  wsize : Z;
  issigned : Z;
  verbose : Z;
  endianness : Z;
  scale : double
}.

Definition initial_locals : locals :=
  Locals EmptyString EmptyString 1 1 1 4 0 0 BIG_ENDIAN 1%float.

(** One result of [getopt_long], with [optarg] already converted by the
    [atoi] or [atof] of its case ([atof]'s double rounded to [float]). *)
Inductive getopt_result : Type :=
| Opt_flag
| Opt_x (atoi_optarg : Z)
| Opt_y (atoi_optarg : Z)
| Opt_z (atoi_optarg : Z)
| Opt_w (atoi_optarg : Z)
| Opt_s (atof_optarg : double)
| Opt_i (optarg : string)
| Opt_m
| Opt_l
| Opt_o (optarg : string)
| Opt_v
| Opt_unknown.

(** [strncpy(dst, optarg, 256)] into a zeroed 256-byte array: at most 256
    characters are kept.  For an [optarg] of 256 characters or more the C
    array is left without a terminator and what the program then reads is
    undefined; this value stands for the program only for shorter ones
    (see [short_path]). *)
Definition strncpy_256 (optarg : string) : string := substring 0 256 optarg.

(** One turn of the [switch]. *)
Definition set_option (o : getopt_result) (l : locals) : M W locals :=
  match o with
  | Opt_flag => ret l
  | Opt_x v => ret (Locals (inputfile l) (outputfile l) v (ny l) (nz l) (wsize l) (issigned l) (verbose l) (endianness l) (scale l))
  | Opt_y v => ret (Locals (inputfile l) (outputfile l) (nx l) v (nz l) (wsize l) (issigned l) (verbose l) (endianness l) (scale l))
  | Opt_z v => ret (Locals (inputfile l) (outputfile l) (nx l) (ny l) v (wsize l) (issigned l) (verbose l) (endianness l) (scale l))
  | Opt_w v => ret (Locals (inputfile l) (outputfile l) (nx l) (ny l) (nz l) v (issigned l) (verbose l) (endianness l) (scale l))
  | Opt_s v => ret (Locals (inputfile l) (outputfile l) (nx l) (ny l) (nz l) (wsize l) (issigned l) (verbose l) (endianness l) v)
  | Opt_i s => ret (Locals (strncpy_256 s) (outputfile l) (nx l) (ny l) (nz l) (wsize l) (issigned l) (verbose l) (endianness l) (scale l))
  | Opt_m => ret (Locals (inputfile l) (outputfile l) (nx l) (ny l) (nz l) (wsize l) 1 (verbose l) (endianness l) (scale l))
  | Opt_l => ret (Locals (inputfile l) (outputfile l) (nx l) (ny l) (nz l) (wsize l) (issigned l) (verbose l) LITTLE_ENDIAN (scale l))
  | Opt_o s => ret (Locals (inputfile l) (strncpy_256 s) (nx l) (ny l) (nz l) (wsize l) (issigned l) (verbose l) (endianness l) (scale l))
  | Opt_v => ret (Locals (inputfile l) (outputfile l) (nx l) (ny l) (nz l) (wsize l) (issigned l) 1 (endianness l) (scale l))
  | Opt_unknown => usage
  end.

(** The option loop, until [getopt_long] returns -1. *)
Fixpoint parse_options (opts : list getopt_result) (l : locals) : M W locals :=
  match opts with
  | [] => ret l
  | o :: rest => l' <- set_option o l ;; parse_options rest l'
  end.

Definition is_empty (s : string) : bool :=
  match s with EmptyString => true | String _ _ => false end.

(** ** Variables of [main] that start without a value *)

(** [malloc]ed memory and the automatic variables [ncid], [dimids] and
    [varid] hold whatever they hold until something is stored in them. *)
Record indeterminate : Type := Indeterminate {
  data0 : Z -> double;
  ncid0 : Z;
  dimids0_0 : Z;
  dimids0_1 : Z;
  dimids0_2 : Z;
  varid0 : Z
}.

Fixpoint set_cell (n : nat) (v : Z) (cells : list Z) : list Z :=
  match cells, n with
  | [], _ => []
  | _ :: t, O => v :: t
  | h :: t, Datatypes.S n' => h :: set_cell n' v t
  end.

(** [dimids[n]] after a step that was given [&dimids[n]]. *)
Definition store_cell (n : nat) (out : option Z) (cells : list Z) : list Z :=
  match out with Some v => set_cell n v cells | None => cells end.

Definition call_print_statistics (data : Z -> double) (nx ny nz : Z) : M W unit :=
  fun s => (Done tt, State (world s) (print_statistics data nx ny nz (trace s))).

(** ** [main], from the check of the two paths to [exit (0)] *)

Definition run (l : locals) (u : indeterminate) : M W unit :=
  when (is_empty (inputfile l) || is_empty (outputfile l)) usage ;;
  when (negb (verbose l =? 0))
    (printf ("Input file:" ++ tab ++ tab ++ "%s" ++ nl) [AStr (inputfile l)] ;;
     printf ("output file:" ++ tab ++ tab ++ "%s" ++ nl) [AStr (outputfile l)] ;;
     printf ("Grid NX:" ++ tab ++ tab ++ "%i" ++ nl) [AInt (nx l)] ;;
     printf ("Grid NY:" ++ tab ++ tab ++ "%i" ++ nl) [AInt (ny l)] ;;
     printf ("Grid NZ:" ++ tab ++ tab ++ "%i" ++ nl) [AInt (nz l)] ;;
     printf ("Word size:" ++ tab ++ tab ++ "%i" ++ nl) [AInt (wsize l)] ;;
     printf ("Scale factor:" ++ tab ++ tab ++ "%f" ++ nl) [ADbl (scale l)] ;;
     printf ("Signed:" ++ tab ++ tab ++ tab ++ "%s" ++ nl)
       [AStr (if negb (issigned l =? 0) then "yes" else "no")] ;;
     printf ("Endianness:" ++ tab ++ tab ++ "%s" ++ nl)
       [AStr (if endianness l =? LITTLE_ENDIAN then "little" else "big")]) ;;
  emit (EMalloc
    ((size_of_int (Int.mul (Int.mul (nx l) (ny l)) (nz l)) * sizeof_float)
       mod size_t_modulus)) ;;
  r <- call_read_geogrid
         (RgArgs (inputfile l) (Z.of_nat (String.length (inputfile l))) (data0 u)
                 (nx l) (ny l) (nz l) (issigned l) (endianness l) (scale l)
                 (wsize l) 0) ;;
  printf ("Read geogrid status: %i" ++ nl) [AInt (rg_status_after r)] ;;
  o <- NC "nc_create( outputfile, NC_WRITE | NC_NETCDF4, &ncid )"
          (Nc_create (outputfile l) (Z.lor NC_WRITE NC_NETCDF4)) ;;
  let ncid := stored o (ncid0 u) in
  let dimids := [dimids0_0 u; dimids0_1 u; dimids0_2 u] in
  varid <-
    (if nz l >? 1 then
       ox <- NC ("nc_def_dim( ncid, " ++ dq ++ "x" ++ dq ++ ", nx, &dimids[2])")
               (Nc_def_dim ncid "x" (size_of_int (nx l))) ;;
       let dimids := store_cell 2 ox dimids in
       oy <- NC ("nc_def_dim( ncid, " ++ dq ++ "y" ++ dq ++ ", ny, &dimids[1])")
               (Nc_def_dim ncid "y" (size_of_int (ny l))) ;;
       let dimids := store_cell 1 oy dimids in
       oz <- NC ("nc_def_dim( ncid, " ++ dq ++ "z" ++ dq ++ ", nz, &dimids[0])")
               (Nc_def_dim ncid "z" (size_of_int (nz l))) ;;
       let dimids := store_cell 0 oz dimids in
       ov <- NC ("nc_def_var( ncid, " ++ dq ++ "var" ++ dq ++ ", NC_FLOAT, 3, dimids, &varid )")
               (Nc_def_var ncid "var" NC_FLOAT 3 dimids) ;;
       ret (stored ov (varid0 u))
     else
       ox <- NC ("nc_def_dim( ncid, " ++ dq ++ "x" ++ dq ++ ", nx, &dimids[1])")
               (Nc_def_dim ncid "x" (size_of_int (nx l))) ;;
       let dimids := store_cell 1 ox dimids in
       oy <- NC ("nc_def_dim( ncid, " ++ dq ++ "y" ++ dq ++ ", ny, &dimids[0])")
               (Nc_def_dim ncid "y" (size_of_int (ny l))) ;;
       let dimids := store_cell 0 oy dimids in
       ov <- NC ("nc_def_var( ncid, " ++ dq ++ "var" ++ dq ++ ", NC_FLOAT, 2, dimids, &varid )")
               (Nc_def_var ncid "var" NC_FLOAT 2 dimids) ;;
       ret (stored ov (varid0 u))) ;;
  NC "nc_def_var_deflate( ncid, varid, NC_NOSHUFFLE, 1, 4 )"
     (Nc_def_var_deflate ncid varid NC_NOSHUFFLE 1 4) ;;
  NC "nc_enddef( ncid )" (Nc_enddef ncid) ;;
  NC "nc_put_var( ncid, varid, data )" (Nc_put_var ncid varid (rg_array_after r)) ;;
  NC "nc_close( ncid )" (Nc_close ncid) ;;
  call_print_statistics (rg_array_after r) (nx l) (ny l) (nz l) ;;
  emit EFree ;;
  exit 0.

(** [main] on the results of [getopt_long]. *)
Definition main (opts : list getopt_result) (u : indeterminate) : M W unit :=
  l <- parse_options opts initial_locals ;;
  run l u.

End Program.

(** * Definitions used to state the properties *)

(** ** Counted loops as folds over the values of the counter *)

(** The values the counter of [for_from] takes. *)
Fixpoint counters (fuel : nat) (i : Z) : list Z :=
  match fuel with
  | O => []
  | Datatypes.S fuel' => i :: counters fuel' (Int.add i 1)
  end.

(** [0; 1; ...; n-1] *)
Definition zrange (n : Z) : list Z := map Z.of_nat (seq 0 (Z.to_nat n)).

(** ** The samples of a level *)

(** The samples read at level [k], in the order the loops read them. *)
Definition level_samples (data : Z -> double) (nx ny k : Z) : list double :=
  flat_map (fun j => map (fun i => data (sample_index nx ny k j i)) (zrange nx))
           (zrange ny).

(** Left-to-right sum in double precision, from [0.0]. *)
Definition fsum (l : list double) : double := fold_left PrimFloat.add l 0%float.

Definition accumulate_all (l : list double) (a : accum) : accum :=
  fold_left (fun a d => accumulate d a) l a.

(** The accumulators lie on either side of zero. *)
Definition straddles_zero (a : accum) : Prop :=
  PrimFloat.leb (acc_min a) 0 = true /\ PrimFloat.leb 0 (acc_max a) = true.

(** ** Grids whose size fits an [int] *)

Definition grid_fits (nx ny nz : Z) : Prop :=
  1 <= nx /\ 1 <= ny /\ 1 <= nz /\ nx * ny * nz <= Int.max_signed.

(** ** Views of a trace *)

Definition nc_event (e : event) : list (nc_call * nc_reply) :=
  match e with ENc c r => [(c, r)] | _ => [] end.

(** The netCDF steps of a trace with their replies, in order. *)
Definition nc_events (tr : list event) : list (nc_call * nc_reply) :=
  flat_map nc_event tr.

Definition nc_calls (tr : list event) : list nc_call := map fst (nc_events tr).

Definition decoder_event (e : event) : list (rg_args * rg_result) :=
  match e with EReadGeogrid a r => [(a, r)] | _ => [] end.

(** The calls of [read_geogrid] in a trace, with what they left behind. *)
Definition decoder_calls (tr : list event) : list (rg_args * rg_result) :=
  flat_map decoder_event tr.

Definition step_name (c : nc_call) : string :=
  match c with
  | Nc_create _ _ => "nc_create"
  | Nc_def_dim _ _ _ => "nc_def_dim"
  | Nc_def_var _ _ _ _ _ => "nc_def_var"
  | Nc_def_var_deflate _ _ _ _ _ => "nc_def_var_deflate"
  | Nc_enddef _ => "nc_enddef"
  | Nc_put_var _ _ _ => "nc_put_var"
  | Nc_close _ => "nc_close"
  end.

Definition dim_definition (c : nc_call) : list (string * Z) :=
  match c with Nc_def_dim _ name len => [(name, len)] | _ => [] end.

(** Names and lengths of the dimensions, in the order [nc_def_dim] is
    called for them. *)
Definition dims_defined (tr : list event) : list (string * Z) :=
  flat_map dim_definition (nc_calls tr).

Definition var_definition (cr : nc_call * nc_reply) : list (nc_call * nc_reply) :=
  match fst cr with Nc_def_var _ _ _ _ _ => [cr] | _ => [] end.

(** The [nc_def_var] steps of a trace, with their replies. *)
Definition vars_defined (tr : list event) : list (nc_call * nc_reply) :=
  flat_map var_definition (nc_events tr).

Definition deflate_call (c : nc_call) : list nc_call :=
  match c with Nc_def_var_deflate _ _ _ _ _ => [c] | _ => [] end.

Definition deflate_calls (tr : list event) : list nc_call :=
  flat_map deflate_call (nc_calls tr).

(** The id the library stored for the dimension called [name], if it
    stored one. *)
Fixpoint dim_id (name : string) (evs : list (nc_call * nc_reply)) : option Z :=
  match evs with
  | [] => None
  | (Nc_def_dim _ n _, r) :: rest =>
      if String.eqb n name then nc_out r else dim_id name rest
  | _ :: rest => dim_id name rest
  end.

Definition is_stats_line (e : event) : bool :=
  match e with
  | EPrintf fmt _ => String.eqb fmt stats_format
  | _ => false
  end.

(** The lines of the statistics report in a trace. *)
Definition stats_lines (tr : list event) : list event := filter is_stats_line tr.

(** What follows the call of [read_geogrid] in a trace. *)
Fixpoint after_decoder (tr : list event) : list event :=
  match tr with
  | [] => []
  | EReadGeogrid _ _ :: rest => rest
  | _ :: rest => after_decoder rest
  end.

(** [tr] finishes with the events [suffix]. *)
Definition ends_with (tr suffix : list event) : Prop :=
  exists head, tr = head ++ suffix.

Section Runs.

Context {W : Type} {ext : Externals W}.

(** A run of the program from an empty trace. *)
Definition run_trace (l : locals) (u : indeterminate) (w : W) : list event :=
  trace (snd (run l u (State w []))).

Definition run_result (l : locals) (u : indeterminate) (w : W) : result unit :=
  fst (run l u (State w [])).



(** Both paths were given on the command line. *)
Definition paths_given (l : locals) : Prop :=
  is_empty (inputfile l) = false /\ is_empty (outputfile l) = false.

(** The arguments [main] passes to [read_geogrid]. *)
Definition decoder_args (l : locals) (u : indeterminate) : rg_args :=
  RgArgs (inputfile l) (Z.of_nat (String.length (inputfile l))) (data0 u)
         (nx l) (ny l) (nz l) (issigned l) (endianness l) (scale l) (wsize l) 0.

(** Every netCDF step of the trace is directly followed by the line the
    [NC] macro prints for the status of that very step, with a text that
    starts with the name of the step. *)
Fixpoint steps_reported (tr : list event) : Prop :=
  match tr with
  | [] => True
  | ENc c r :: rest =>
      (exists tst, prefix (step_name c) tst = true
                   /\ hd_error rest = Some (nc_report tst (nc_status r)))
      /\ steps_reported rest
  | _ :: rest => steps_reported rest
  end.

End Runs.

(** ** Further views, used by the further properties *)

(** [m] bounds the samples [l] from below and is 0.0 or a negative sample. *)
Definition least_or_zero (l : list double) (m : double) : Prop :=
  (forall x, In x l -> PrimFloat.ltb x m = false)
  /\ (m = 0%float \/ (In m l /\ PrimFloat.ltb m 0 = true)).

(** [m] bounds the samples [l] from above and is 0.0 or a positive sample. *)
Definition greatest_or_zero (l : list double) (m : double) : Prop :=
  (forall x, In x l -> PrimFloat.ltb m x = false)
  /\ (m = 0%float \/ (In m l /\ PrimFloat.ltb 0 m = true)).



(** The subscripts read at level [k], in the order the loops read them. *)
Definition level_subscripts (nx ny k : Z) : list Z :=
  flat_map (fun j => map (fun i => sample_index nx ny k j i) (zrange nx)) (zrange ny).

(** The cells of level [k] of a grid stored level after level:
    [data[k*nx*ny]], ..., [data[(k+1)*nx*ny - 1]]. *)
Definition level_cells (data : Z -> double) (nx ny k : Z) : list double :=
  map (fun t => data (k * (nx * ny) + t)) (zrange (nx * ny)).

(** The path of the option, if it has one, fits the 256-byte array with its
    terminator. *)
Definition short_path (o : getopt_result) : bool :=
  match o with
  | Opt_i s | Opt_o s => (String.length s <? 256)%nat
  | _ => true
  end.

(** The paths as they were given. *)
Definition given_i (o : getopt_result) : option string :=
  match o with Opt_i s => Some s | _ => None end.
Definition given_o (o : getopt_result) : option string :=
  match o with Opt_o s => Some s | _ => None end.

(** The value of the last option that [pick] selects, or [default]. *)
Definition last_value {A : Type} (pick : getopt_result -> option A)
    (opts : list getopt_result) (default : A) : A :=
  fold_left (fun acc o => match pick o with Some v => v | None => acc end)
            opts default.

Definition pick_x (o : getopt_result) : option Z :=
  match o with Opt_x v => Some v | _ => None end.
Definition pick_y (o : getopt_result) : option Z :=
  match o with Opt_y v => Some v | _ => None end.
Definition pick_z (o : getopt_result) : option Z :=
  match o with Opt_z v => Some v | _ => None end.
Definition pick_w (o : getopt_result) : option Z :=
  match o with Opt_w v => Some v | _ => None end.
Definition pick_s (o : getopt_result) : option double :=
  match o with Opt_s v => Some v | _ => None end.
Definition pick_i (o : getopt_result) : option string :=
  match o with Opt_i s => Some (strncpy_256 s) | _ => None end.
Definition pick_o (o : getopt_result) : option string :=
  match o with Opt_o s => Some (strncpy_256 s) | _ => None end.
Definition pick_m (o : getopt_result) : option Z :=
  match o with Opt_m => Some 1 | _ => None end.
Definition pick_l (o : getopt_result) : option Z :=
  match o with Opt_l => Some LITTLE_ENDIAN | _ => None end.
Definition pick_v (o : getopt_result) : option Z :=
  match o with Opt_v => Some 1 | _ => None end.

(** [getopt_long] returned [?] or a character without a case. *)
Definition is_unknown (o : getopt_result) : bool :=
  match o with Opt_unknown => true | _ => false end.

(** The locals at the end of the option loop, when no option is unknown. *)
Definition parsed (opts : list getopt_result) : locals :=
  Locals (last_value pick_i opts EmptyString) (last_value pick_o opts EmptyString)
         (last_value pick_x opts 1) (last_value pick_y opts 1)
         (last_value pick_z opts 1) (last_value pick_w opts 4)
         (last_value pick_m opts 0) (last_value pick_v opts 0)
         (last_value pick_l opts BIG_ENDIAN) (last_value pick_s opts 1%float).

(** The settings the command line asks for: each one from its last
    occurrence, the paths as given. *)
Definition settings (opts : list getopt_result) : locals :=
  Locals (last_value given_i opts EmptyString) (last_value given_o opts EmptyString)
         (last_value pick_x opts 1) (last_value pick_y opts 1)
         (last_value pick_z opts 1) (last_value pick_w opts 4)
         (last_value pick_m opts 0) (last_value pick_v opts 0)
         (last_value pick_l opts BIG_ENDIAN) (last_value pick_s opts 1%float).

(** What [usage] prints. *)
Definition usage_events : list event := map (fun t => EPrintf t []) usage_text.

(** Neither path is empty. *)
Definition both_paths (l : locals) : bool :=
  negb (is_empty (inputfile l) || is_empty (outputfile l)).

Definition malloc_event (e : event) : list Z :=
  match e with EMalloc n => [n] | _ => [] end.

(** The sizes asked of [malloc], in order. *)
Definition mallocs (tr : list event) : list Z := flat_map malloc_event tr.

Definition is_free (e : event) : bool :=
  match e with EFree => true | _ => false end.

(** The number of calls of [free]. *)
Definition frees (tr : list event) : nat := List.length (filter is_free tr).

(** The [ncid] a step is addressed to; [nc_create] has none. *)
Definition call_ncid (c : nc_call) : option Z :=
  match c with
  | Nc_create _ _ => None
  | Nc_def_dim ncid _ _ | Nc_def_var ncid _ _ _ _
  | Nc_def_var_deflate ncid _ _ _ _ | Nc_enddef ncid
  | Nc_put_var ncid _ _ | Nc_close ncid => Some ncid
  end.

Definition put_call (c : nc_call) : list nc_call :=
  match c with Nc_put_var _ _ _ => [c] | _ => [] end.

Definition put_calls (tr : list event) : list nc_call :=
  flat_map put_call (nc_calls tr).

Definition is_printf (e : event) : bool :=
  match e with EPrintf _ _ => true | _ => false end.

(** [l] with [verbose] off. *)
Definition quiet (l : locals) : locals :=
  Locals (inputfile l) (outputfile l) (nx l) (ny l) (nz l) (wsize l)
         (issigned l) 0 (endianness l) (scale l).

Section Reports.

Context {W : Type} {ext : Externals W}.

(** The format and the arguments of the line of the [NC] macro. *)
Definition report_format (status : Z) : string :=
  if status =? NC_NOERR then "[OK] %s" ++ nl else "[XX] %s: %s" ++ nl.

Definition report_args (tst : string) (status : Z) : list printf_arg :=
  if status =? NC_NOERR then [AStr tst] else [AStr tst; AStr (nc_strerror status)].

End Reports.

(** ** A reference environment and example inputs *)

(** A netCDF library and a decoder that answer with fixed statuses: the
    decoder fills the buffer with [buf] and reports [rg_st]; every netCDF
    step returns [nc_st] and, when that is [NC_NOERR], stores the number of
    steps so far as the new id.  The world is the count of netCDF steps. *)
Definition fixed_externals (buf : Z -> double) (rg_st nc_st : Z) : Externals Z :=
  {| read_geogrid := fun _ w => (RgResult buf rg_st, w);
     nc_library := fun c w =>
       (NcReply nc_st
          (if nc_st =? NC_NOERR then
             match c with
             | Nc_create _ _ | Nc_def_dim _ _ _ | Nc_def_var _ _ _ _ _ => Some w
             | _ => None
             end
           else None),
        w + 1);
     nc_strerror := fun _ => "NetCDF: error"%string |}.

(** The tile of the end-to-end example: [[10,20],[30,40]]. *)
Definition tile_2x2 (i : Z) : double :=
  match i with
  | 0 => 10%float | 1 => 20%float | 2 => 30%float | 3 => 40%float
  | _ => 0%float
  end.


(** [-i tile.bin -o tile.nc -x 2 -y 2 -w 2]: one level of 2 by 2. *)
Definition example_locals : locals :=
  Locals "tile.bin" "tile.nc" 2 2 1 2 0 0 BIG_ENDIAN 1%float.

(** [-i tile.bin -o tile.nc -x 2 -z 2 -w 2]: two levels of 2 by 1. *)
Definition example_locals_3d : locals :=
  Locals "tile.bin" "tile.nc" 2 1 2 2 0 0 BIG_ENDIAN 1%float.

(** [-i tile.bin -o tile.nc -x 2 -y 2 -s 0]. *)
Definition zero_scale_options : list getopt_result :=
  [Opt_i "tile.bin"; Opt_o "tile.nc"; Opt_x 2; Opt_y 2; Opt_s 0%float].

Definition example_indeterminate : indeterminate :=
  Indeterminate (fun _ => 0%float) (-1) (-2) (-3) (-4) (-5).


(** [example_locals] with [--verbose]. *)
Definition verbose_locals : locals :=
  Locals "tile.bin" "tile.nc" 2 2 1 2 0 1 BIG_ENDIAN 1%float.


(** * Properties *)

(** ** [int] arithmetic without overflow *)

Lemma wrap_in_range (z : Z) : Int.in_range z -> Int.wrap z = z.
Proof.
  unfold Int.in_range, Int.wrap, Int.min_signed, Int.max_signed,
    Int.half_modulus, Int.modulus.
  intros H. rewrite Z.mod_small; lia.
Qed.

(** ** Counted loops as folds over the values of the counter *)

Lemma for_from_fold {S : Type} (body : Z -> S -> S) (fuel : nat) :
  forall (i : Z) (s : S),
    for_from fuel i body s = fold_left (fun s k => body k s) (counters fuel i) s.
Proof.
  induction fuel as [|fuel IH]; intros i s; simpl.
  - reflexivity.
  - apply IH.
Qed.

Lemma counters_seq (fuel : nat) :
  forall (start : nat),
    Z.of_nat start + Z.of_nat fuel <= Int.max_signed ->
    counters fuel (Z.of_nat start) = map Z.of_nat (seq start fuel).
Proof.
  unfold Int.max_signed.
  induction fuel as [|fuel IH]; intros start H; simpl.
  - reflexivity.
  - f_equal.
    replace (Int.add (Z.of_nat start) 1) with (Z.of_nat (Datatypes.S start)).
    + apply IH. lia.
    + unfold Int.add. rewrite wrap_in_range.
      * lia.
      * unfold Int.in_range, Int.min_signed, Int.max_signed. lia.
Qed.

Lemma counters_zrange (n : Z) :
  n <= Int.max_signed -> counters (Z.to_nat n) 0 = zrange n.
Proof.
  intros H. unfold zrange. apply (counters_seq (Z.to_nat n) 0%nat).
  unfold Int.max_signed in *. lia.
Qed.

Lemma for_lt_fold {S : Type} (n : Z) (body : Z -> S -> S) (s : S) :
  n <= Int.max_signed ->
  for_lt n body s = fold_left (fun s k => body k s) (zrange n) s.
Proof.
  intros H. unfold for_lt. rewrite for_from_fold, counters_zrange by exact H.
  reflexivity.
Qed.

Lemma in_zrange (n k : Z) : In k (zrange n) <-> 0 <= k < n.
Proof.
  unfold zrange. rewrite in_map_iff. split.
  - intros [t [<- Ht]]. apply in_seq in Ht. lia.
  - intros H. exists (Z.to_nat k). split; [lia|]. apply in_seq. lia.
Qed.

Lemma length_zrange (n : Z) : List.length (zrange n) = Z.to_nat n.
Proof. unfold zrange. now rewrite length_map, length_seq. Qed.


(** ** The statistics as folds over the samples of a level *)

Lemma fold_left_flat_map {A B C : Type} (f : A -> C -> A) (g : B -> list C)
    (l : list B) :
  forall a, fold_left f (flat_map g l) a
            = fold_left (fun a x => fold_left f (g x) a) l a.
Proof.
  induction l as [|x l IH]; intros a; simpl.
  - reflexivity.
  - rewrite fold_left_app. apply IH.
Qed.

Lemma fold_left_map {A B C : Type} (f : A -> C -> A) (g : B -> C) (l : list B) :
  forall a, fold_left f (map g l) a = fold_left (fun a x => f a (g x)) l a.
Proof.
  induction l as [|x l IH]; intros a; simpl; [reflexivity | apply IH].
Qed.

Lemma fold_left_ext_in {A B : Type} (f g : A -> B -> A) (l : list B) :
  (forall a x, In x l -> f a x = g a x) ->
  forall a, fold_left f l a = fold_left g l a.
Proof.
  induction l as [|x l IH]; intros H a; simpl.
  - reflexivity.
  - rewrite H by (now left). apply IH. intros; apply H; now right.
Qed.

Lemma level_accum_fold (data : Z -> double) (nx ny k : Z) :
  nx <= Int.max_signed -> ny <= Int.max_signed ->
  level_accum data nx ny k = accumulate_all (level_samples data nx ny k) accum_init.
Proof.
  intros Hx Hy. unfold level_accum, accumulate_all, level_samples.
  rewrite for_lt_fold by exact Hy.
  rewrite fold_left_flat_map.
  apply fold_left_ext_in. intros a j _.
  rewrite for_lt_fold by exact Hx.
  now rewrite fold_left_map.
Qed.


Lemma accumulate_all_avg (l : list double) :
  forall a, acc_avg (accumulate_all l a) = fold_left PrimFloat.add l (acc_avg a).
Proof.
  induction l as [|d l IH]; intros a; simpl; [reflexivity|].
  unfold accumulate_all in *. simpl. now rewrite IH.
Qed.

Lemma print_statistics_lines (data : Z -> double) (nx ny nz : Z) (out : list event) :
  print_statistics data nx ny nz out
  = out ++ map (fun k => stats_line nx ny k (level_accum data nx ny k))
               (counters (Z.to_nat nz) 0).
Proof.
  unfold print_statistics, for_lt. rewrite for_from_fold.
  generalize (counters (Z.to_nat nz) 0). intros l. revert out.
  induction l as [|k l IH]; intros out; simpl.
  - now rewrite app_nil_r.
  - rewrite IH, <- app_assoc. reflexivity.
Qed.

(** ** Comparisons of doubles against zero *)

Lemma Prim2SF_zero : Prim2SF 0%float = S754_zero false.
Proof. reflexivity. Qed.

Ltac float_cases x :=
  let s := fresh "s" in
  destruct (Prim2SF x) as [s|s| |s ? ?]; try destruct s.

Lemma ltb_below_nonpos (d m : double) :
  PrimFloat.ltb d m = true -> PrimFloat.leb m 0 = true -> PrimFloat.leb d 0 = true.
Proof.
  rewrite ltb_spec, !leb_spec, Prim2SF_zero. unfold SFltb, SFleb.
  float_cases d; float_cases m; simpl; congruence.
Qed.

Lemma ltb_above_nonneg (d m : double) :
  PrimFloat.ltb m d = true -> PrimFloat.leb 0 m = true -> PrimFloat.leb 0 d = true.
Proof.
  rewrite ltb_spec, !leb_spec, Prim2SF_zero. unfold SFltb, SFleb.
  float_cases d; float_cases m; simpl; congruence.
Qed.



(** ** Invariants of the accumulators *)

Lemma straddles_zero_init : straddles_zero accum_init.
Proof. split; reflexivity. Qed.

Lemma straddles_zero_accumulate (d : double) (a : accum) :
  straddles_zero a -> straddles_zero (accumulate d a).
Proof.
  intros [Hmin Hmax]. unfold straddles_zero, accumulate, gtb. simpl. split.
  - destruct (PrimFloat.ltb d (acc_min a)) eqn:E.
    + exact (ltb_below_nonpos _ _ E Hmin).
    + exact Hmin.
  - destruct (PrimFloat.ltb (acc_max a) d) eqn:E.
    + exact (ltb_above_nonneg _ _ E Hmax).
    + exact Hmax.
Qed.

Lemma for_from_invariant {S : Type} (P : S -> Prop) (body : Z -> S -> S) :
  (forall i s, P s -> P (body i s)) ->
  forall fuel i s, P s -> P (for_from fuel i body s).
Proof.
  intros Hbody. induction fuel as [|fuel IH]; intros i s Hs; simpl.
  - exact Hs.
  - apply IH, Hbody, Hs.
Qed.

Lemma straddles_zero_level (data : Z -> double) (nx ny k : Z) :
  straddles_zero (level_accum data nx ny k).
Proof.
  unfold level_accum, for_lt.
  apply for_from_invariant; [|exact straddles_zero_init].
  intros j a Ha. apply for_from_invariant; [|exact Ha].
  intros i a' Ha'. now apply straddles_zero_accumulate.
Qed.



(** ** Subscripts of grids whose size fits an [int] *)

Lemma grid_fits_bounds (nx ny nz : Z) :
  grid_fits nx ny nz ->
  nx <= Int.max_signed /\ ny <= Int.max_signed /\ nz <= Int.max_signed
  /\ nx * ny <= Int.max_signed.
Proof.
  unfold grid_fits, Int.max_signed. intros (Hx & Hy & Hz & H).
  assert (nx * ny <= nx * ny * nz) by nia.
  assert (nx <= nx * ny) by nia.
  assert (ny <= nx * ny) by nia.
  assert (nz <= nx * ny * nz) by nia.
  lia.
Qed.

Lemma sample_index_exact (nx ny nz k j i : Z) :
  grid_fits nx ny nz -> 0 <= k < nz -> 0 <= j < ny -> 0 <= i < nx ->
  sample_index nx ny k j i = k * nx * ny + j * nx + i
  /\ 0 <= k * nx * ny + j * nx + i < nx * ny * nz.
Proof.
  unfold grid_fits, Int.max_signed. intros (Hx & Hy & Hz & H) Hk Hj Hi.
  assert (Hknx : 0 <= k * nx <= (nz - 1) * nx) by nia.
  assert (Hknxny : 0 <= k * nx * ny <= (nz - 1) * nx * ny) by nia.
  assert (Hjnx : 0 <= j * nx <= (ny - 1) * nx) by nia.
  assert (Hsum : 0 <= k * nx * ny + j * nx + i < nx * ny * nz) by nia.
  assert (Hnxny : nx * ny <= nx * ny * nz) by nia.
  assert (Hnx : nx <= nx * ny) by nia.
  split; [|exact Hsum].
  unfold sample_index, Int.add, Int.mul.
  assert (R : forall z, 0 <= z <= 2147483647 -> Int.wrap z = z).
  { intros z Hz'. apply wrap_in_range.
    unfold Int.in_range, Int.min_signed, Int.max_signed. lia. }
  rewrite (R (k * nx)) by nia.
  rewrite (R (k * nx * ny)) by nia.
  rewrite (R (j * nx)) by nia.
  rewrite (R (k * nx * ny + j * nx)) by nia.
  rewrite (R (k * nx * ny + j * nx + i)) by nia.
  reflexivity.
Qed.

(** ** The report of [print_statistics] *)


Lemma level_number (nz k : Z) :
  nz <= Int.max_signed -> 0 <= k < nz -> Int.add k 1 = k + 1.
Proof.
  intros Hz Hk. apply wrap_in_range.
  unfold Int.in_range, Int.min_signed, Int.max_signed in *. lia.
Qed.


(** C9: whatever the buffer holds, every line printed by
    [print_statistics] has the shape level, mean, minimum, maximum; its
    minimum is at most 0.0 and its maximum is at least 0.0; and there is
    one line for each of the [nz] levels. *)
Theorem reported_min_max_straddle_zero (data : Z -> double) (nx ny nz : Z) :
  List.length (print_statistics data nx ny nz []) = Z.to_nat nz
  /\ forall e, In e (print_statistics data nx ny nz []) ->
       exists (level : Z) (mean mn mx : double),
         e = EPrintf stats_format [AInt level; ADbl mean; ADbl mn; ADbl mx]
         /\ PrimFloat.leb mn 0 = true
         /\ PrimFloat.leb 0 mx = true.
Proof.
  rewrite print_statistics_lines. simpl. split.
  - rewrite length_map. generalize 0 at 1.
    induction (Z.to_nat nz) as [|n IH]; intros i; simpl; [reflexivity|].
    now rewrite IH.
  - intros e He. apply in_map_iff in He. destruct He as [k [<- _]].
    destruct (straddles_zero_level data nx ny k) as [Hmin Hmax].
    unfold stats_line. eauto 8.
Qed.

(** C10, as amended: when the extents are at least 1 and [nx*ny*nz] fits an
    [int], every subscript the loops compute is [k*nx*ny + j*nx + i] and
    lies in [0, nx*ny*nz), and the report depends on the buffer only
    through the cells with those subscripts. *)
Theorem subscripts_within_buffer (nx ny nz : Z) :
  grid_fits nx ny nz ->
  (forall k j i, 0 <= k < nz -> 0 <= j < ny -> 0 <= i < nx ->
     sample_index nx ny k j i = k * nx * ny + j * nx + i
     /\ 0 <= sample_index nx ny k j i < nx * ny * nz)
  /\ (forall (data data' : Z -> double) (out : list event),
        (forall idx, 0 <= idx < nx * ny * nz -> data idx = data' idx) ->
        print_statistics data nx ny nz out = print_statistics data' nx ny nz out).
Proof.
  intros Hg. destruct (grid_fits_bounds _ _ _ Hg) as (Hx & Hy & Hz & Hxy). split.
  - intros k j i Hk Hj Hi.
    destruct (sample_index_exact nx ny nz k j i Hg Hk Hj Hi) as [E B].
    rewrite E. split; [reflexivity | exact B].
  - intros data data' out Hsame.
    rewrite !print_statistics_lines, counters_zrange by exact Hz.
    f_equal. apply map_ext_in. intros k Hk. apply in_zrange in Hk.
    f_equal. rewrite !level_accum_fold by assumption. f_equal.
    unfold level_samples.
    assert (E : forall l : list Z, (forall j, In j l -> 0 <= j < ny) ->
              flat_map (fun j => map (fun i => data (sample_index nx ny k j i)) (zrange nx)) l
              = flat_map (fun j => map (fun i => data' (sample_index nx ny k j i)) (zrange nx)) l).
    { induction l as [|j l IH]; intros Hl; simpl; [reflexivity|].
      rewrite IH by (intros; apply Hl; now right). f_equal.
      apply map_ext_in. intros i Hi. apply in_zrange in Hi.
      assert (Hj : 0 <= j < ny) by (apply Hl; now left).
      destruct (sample_index_exact nx ny nz k j i Hg Hk Hj Hi) as [E B].
      apply Hsame. rewrite E. exact B. }
    apply E. intros j Hj. now apply in_zrange.
Qed.

(** C10, as stated, fails: with [nx = ny = 65536] and [nz = 1] the
    subscript computed at [k = 0], [j = 65535], [i = 0] is [-65536]. *)
Lemma subscript_overflow :
  1 <= 65536 /\ 0 <= 0 < 1 /\ 0 <= 65535 < 65536 /\ 0 <= 0 < 65536
  /\ sample_index 65536 65536 0 65535 0 = -65536
  /\ ~ (0 <= sample_index 65536 65536 0 65535 0 < 65536 * 65536 * 1).
Proof.
  assert (E : sample_index 65536 65536 0 65535 0 = -65536) by reflexivity.
  rewrite E. lia.
Qed.

(** ** Symbolic execution of [run] *)

Lemma nc_events_app (a b : list event) :
  nc_events (a ++ b) = nc_events a ++ nc_events b.
Proof. apply flat_map_app. Qed.

Lemma decoder_calls_app (a b : list event) :
  decoder_calls (a ++ b) = decoder_calls a ++ decoder_calls b.
Proof. apply flat_map_app. Qed.

Lemma nc_events_stats (f : Z -> event) (l : list Z) :
  (forall k, nc_event (f k) = []) -> nc_events (map f l) = [].
Proof.
  intros Hf. induction l as [|k l IH]; simpl; [reflexivity|].
  unfold nc_events in *. simpl. now rewrite Hf, IH.
Qed.

Lemma decoder_calls_stats (f : Z -> event) (l : list Z) :
  (forall k, decoder_event (f k) = []) -> decoder_calls (map f l) = [].
Proof.
  intros Hf. induction l as [|k l IH]; simpl; [reflexivity|].
  unfold decoder_calls in *. simpl. now rewrite Hf, IH.
Qed.

Lemma print_statistics_app (data : Z -> double) (nx ny nz : Z) (out : list event) :
  print_statistics data nx ny nz out = out ++ print_statistics data nx ny nz [].
Proof. now rewrite !print_statistics_lines. Qed.

Lemma nc_events_report (data : Z -> double) (nx ny nz : Z) :
  nc_events (print_statistics data nx ny nz [] ++ [EFree]) = [].
Proof.
  rewrite print_statistics_lines, nc_events_app. simpl.
  now rewrite nc_events_stats.
Qed.

Lemma decoder_calls_report (data : Z -> double) (nx ny nz : Z) :
  decoder_calls (print_statistics data nx ny nz [] ++ [EFree]) = [].
Proof.
  rewrite print_statistics_lines, decoder_calls_app. simpl.
  now rewrite decoder_calls_stats.
Qed.

Create Rewrite HintDb views.
#[local] Hint Rewrite nc_events_report decoder_calls_report : views.

Ltac exec_call E :=
  match type of E with
  | context [read_geogrid ?a ?w] =>
      let r := fresh "rg" in let w' := fresh "w" in
      revert E; destruct (read_geogrid a w) as [r w']; intro E;
      cbv beta iota in E
  | context [nc_library ?c ?w] =>
      let r := fresh "r" in let w' := fresh "w" in
      revert E; destruct (nc_library c w) as [r w']; intro E;
      cbv beta iota in E
  end.

(** Runs the program on arbitrary externals: one case per answer of the
    tests on [verbose] and [nz], each with the trace written out. *)
Ltac exec_run l :=
  unfold run_trace, run_result;
  match goal with
  | H : paths_given l |- context [run l ?u ?s] =>
      let H1 := fresh in let H2 := fresh in
      let res := fresh "res" in let st := fresh "st" in
      let E := fresh "E" in
      destruct H as [H1 H2];
      destruct (run l u s) as [res st] eqn:E;
      unfold run in E; rewrite H1, H2 in E; clear H1 H2;
      destruct (verbose l =? 0); destruct (nz l >? 1) eqn:?;
      cbv [bind ret emit printf exit when NC call_nc call_read_geogrid
           call_print_statistics fst snd world trace negb orb] in E;
      repeat exec_call E;
      cbn [app] in E;
      rewrite print_statistics_app, <- app_assoc in E; cbn [app] in E;
      injection E as <- <-;
      cbn [fst snd trace]
  end.

Section RunProperties.

Context {W : Type} {ext : Externals W}.

Lemma steps_reported_report (data : Z -> double) (nx ny nz : Z) :
  steps_reported (print_statistics data nx ny nz [] ++ [EFree]).
Proof.
  rewrite print_statistics_lines. simpl.
  induction (counters (Z.to_nat nz) 0) as [|k l IH]; simpl; [exact I | exact IH].
Qed.

Lemma steps_reported_app (a b : list event) :
  steps_reported a -> steps_reported b -> steps_reported (a ++ b).
Proof.
  intros Ha Hb. induction a as [|e a IH]; simpl; [exact Hb|].
  destruct e; simpl in Ha; try (apply IH; exact Ha).
  destruct Ha as [[tst [Ht Hhd]] Ha]. split; [|apply IH; exact Ha].
  exists tst. split; [exact Ht|].
  destruct a; simpl in *; [discriminate | exact Hhd].
Qed.

Lemma nc_events_nc (c : nc_call) (r : nc_reply) (t : list event) :
  nc_events (ENc c r :: t) = (c, r) :: nc_events t.
Proof. reflexivity. Qed.

Lemma nc_events_report_line (tst : string) (st : Z) (t : list event) :
  nc_events (nc_report tst st :: t) = nc_events t.
Proof. unfold nc_report. destruct (st =? NC_NOERR); reflexivity. Qed.

Lemma nc_events_printf (fmt : string) (args : list printf_arg) (t : list event) :
  nc_events (EPrintf fmt args :: t) = nc_events t.
Proof. reflexivity. Qed.

Lemma nc_events_malloc (n : Z) (t : list event) :
  nc_events (EMalloc n :: t) = nc_events t.
Proof. reflexivity. Qed.

Lemma nc_events_decoder (a : rg_args) (r : rg_result) (t : list event) :
  nc_events (EReadGeogrid a r :: t) = nc_events t.
Proof. reflexivity. Qed.

Lemma decoder_calls_nc (c : nc_call) (r : nc_reply) (t : list event) :
  decoder_calls (ENc c r :: t) = decoder_calls t.
Proof. reflexivity. Qed.

Lemma decoder_calls_report_line (tst : string) (st : Z) (t : list event) :
  decoder_calls (nc_report tst st :: t) = decoder_calls t.
Proof. unfold nc_report. destruct (st =? NC_NOERR); reflexivity. Qed.

Lemma decoder_calls_printf (fmt : string) (args : list printf_arg) (t : list event) :
  decoder_calls (EPrintf fmt args :: t) = decoder_calls t.
Proof. reflexivity. Qed.

Lemma decoder_calls_malloc (n : Z) (t : list event) :
  decoder_calls (EMalloc n :: t) = decoder_calls t.
Proof. reflexivity. Qed.

Lemma decoder_calls_decoder (a : rg_args) (r : rg_result) (t : list event) :
  decoder_calls (EReadGeogrid a r :: t) = (a, r) :: decoder_calls t.
Proof. reflexivity. Qed.

Lemma steps_reported_step (c : nc_call) (r : nc_reply) (tst : string)
    (t : list event) :
  prefix (step_name c) tst = true -> steps_reported t ->
  steps_reported (ENc c r :: nc_report tst (nc_status r) :: t).
Proof.
  intros Hp Ht. simpl. split.
  - exists tst. split; [exact Hp | reflexivity].
  - unfold nc_report. destruct (nc_status r =? NC_NOERR); exact Ht.
Qed.

Lemma ends_with_refl (suffix : list event) : ends_with suffix suffix.
Proof. now exists []. Qed.

Lemma ends_with_cons (e : event) (tr suffix : list event) :
  ends_with tr suffix -> ends_with (e :: tr) suffix.
Proof. intros [head ->]. now exists (e :: head). Qed.

#[local] Hint Rewrite nc_events_nc nc_events_report_line nc_events_printf
  nc_events_malloc nc_events_decoder decoder_calls_nc decoder_calls_report_line
  decoder_calls_printf decoder_calls_malloc decoder_calls_decoder : views.

Lemma skip_malloc (n : Z) (t : list event) :
  steps_reported t -> steps_reported (EMalloc n :: t).
Proof. exact (fun H => H). Qed.

Lemma skip_decoder (a : rg_args) (r : rg_result) (t : list event) :
  steps_reported t -> steps_reported (EReadGeogrid a r :: t).
Proof. exact (fun H => H). Qed.

Lemma skip_printf (fmt : string) (args : list printf_arg) (t : list event) :
  steps_reported t -> steps_reported (EPrintf fmt args :: t).
Proof. exact (fun H => H). Qed.

(** Computes the views of a trace that is written out, each once. *)
Ltac views :=
  unfold dims_defined, vars_defined, deflate_calls;
  unfold nc_calls;
  repeat match goal with
  | |- context [nc_events ?t] =>
      let evs := fresh "evs" in let H := fresh in
      remember (nc_events t) as evs eqn:H;
      autorewrite with views in H; subst evs
  | |- context [decoder_calls ?t] =>
      let evs := fresh "evs" in let H := fresh in
      remember (decoder_calls t) as evs eqn:H;
      autorewrite with views in H; subst evs
  end;
  cbn.

Ltac reported :=
  repeat lazymatch goal with
  | |- steps_reported (ENc _ _ :: _) => apply steps_reported_step; [reflexivity|]
  | |- steps_reported (EMalloc _ :: _) => apply skip_malloc
  | |- steps_reported (EReadGeogrid _ _ :: _) => apply skip_decoder
  | |- steps_reported (EPrintf _ _ :: _) => apply skip_printf
  | |- steps_reported (_ ++ _) => apply steps_reported_report
  end.

Ltac finishes :=
  repeat lazymatch goal with
  | |- ends_with (_ :: _) _ => apply ends_with_cons
  | |- ends_with _ _ => apply ends_with_refl
  end.

(** C4: with both paths given and whatever the netCDF library answers, the
    steps create, define dimensions, define variable, define compression,
    end definition, write, close are all attempted, in that order; each is
    directly followed by the report line of its own status; and the run
    then prints the statistics of the buffer the decoder left, frees the
    buffer and exits with 0. *)
Theorem writer_steps_all_attempted (l : locals) (u : indeterminate) (w : W) :
  paths_given l ->
  map step_name (nc_calls (run_trace l u w))
  = ["nc_create"%string; "nc_def_dim"%string; "nc_def_dim"%string]
    ++ (if nz l >? 1 then ["nc_def_dim"%string] else [])
    ++ ["nc_def_var"%string; "nc_def_var_deflate"%string; "nc_enddef"%string;
        "nc_put_var"%string; "nc_close"%string]
  /\ steps_reported (run_trace l u w)
  /\ (exists rg,
        decoder_calls (run_trace l u w) = [(decoder_args l u, rg)]
        /\ ends_with (run_trace l u w)
             (print_statistics (rg_array_after rg) (nx l) (ny l) (nz l) [] ++ [EFree]))
  /\ run_result l u w = Exited 0.
Proof.
  intros Hp. exec_run l.
  all: split; [views; reflexivity|].
  all: split; [reported|].
  all: split; [|reflexivity].
  all: exists rg; split; [views; reflexivity | finishes].
Qed.

(** C2, as amended: the status of the decoder is printed and has no other
    effect.  With both paths given, [read_geogrid] is called once; whatever
    status it reports, the next event prints that status, all the steps of
    the dataset writer follow, then the statistics of the buffer as the
    decoder left it, and the run exits with 0. *)
Theorem decode_status_is_only_printed (l : locals) (u : indeterminate) (w : W) :
  paths_given l ->
  exists rg,
    decoder_calls (run_trace l u w) = [(decoder_args l u, rg)]
    /\ hd_error (after_decoder (run_trace l u w))
       = Some (EPrintf ("Read geogrid status: %i" ++ nl) [AInt (rg_status_after rg)])
    /\ map step_name (nc_calls (after_decoder (run_trace l u w)))
       = ["nc_create"%string; "nc_def_dim"%string; "nc_def_dim"%string]
         ++ (if nz l >? 1 then ["nc_def_dim"%string] else [])
         ++ ["nc_def_var"%string; "nc_def_var_deflate"%string; "nc_enddef"%string;
             "nc_put_var"%string; "nc_close"%string]
    /\ ends_with (after_decoder (run_trace l u w))
         (print_statistics (rg_array_after rg) (nx l) (ny l) (nz l) [] ++ [EFree])
    /\ run_result l u w = Exited 0.
Proof.
  intros Hp. exec_run l.
  all: exists rg; cbn [after_decoder].
  all: split; [views; reflexivity|].
  all: split; [reflexivity|].
  all: split; [views; reflexivity|].
  all: split; [finishes | reflexivity].
Qed.

(** C3, as amended: the dimensions are defined in the order x, y, z when
    [nz > 1] and x, y otherwise, with the lengths [nx], [ny], [nz]. *)
Theorem dimensions_definition_order (l : locals) (u : indeterminate) (w : W) :
  paths_given l ->
  dims_defined (run_trace l u w)
  = if nz l >? 1
    then [("x"%string, size_of_int (nx l)); ("y"%string, size_of_int (ny l));
          ("z"%string, size_of_int (nz l))]
    else [("x"%string, size_of_int (nx l)); ("y"%string, size_of_int (ny l))].
Proof.
  intros Hp. exec_run l.
  all: views; reflexivity.
Qed.

(** C5: the rank of the variable follows [nz].  When [nz > 1] the one
    [nc_def_var] step asks for 3 dimensions and the ids it passes are, in
    order, those stored for z, y and x; when [nz <= 1] (so when [nz] is 1)
    it asks for 2 dimensions and the ids read are those stored for y and
    x.  In both cases x comes last, the position that varies fastest. *)
Theorem variable_rank (l : locals) (u : indeterminate) (w : W) :
  paths_given l ->
  (1 < nz l ->
     exists ncid dimids r,
       vars_defined (run_trace l u w)
       = [(Nc_def_var ncid "var" NC_FLOAT 3 dimids, r)]
       /\ forall idz idy idx,
            dim_id "z" (nc_events (run_trace l u w)) = Some idz ->
            dim_id "y" (nc_events (run_trace l u w)) = Some idy ->
            dim_id "x" (nc_events (run_trace l u w)) = Some idx ->
            dimids = [idz; idy; idx])
  /\ (nz l <= 1 ->
     exists ncid dimids r,
       vars_defined (run_trace l u w)
       = [(Nc_def_var ncid "var" NC_FLOAT 2 dimids, r)]
       /\ forall idy idx,
            dim_id "y" (nc_events (run_trace l u w)) = Some idy ->
            dim_id "x" (nc_events (run_trace l u w)) = Some idx ->
            firstn 2 dimids = [idy; idx]).
Proof.
  intros Hp. exec_run l.
  all: views.
  all: split; intros Hnz; try lia.
  all: do 3 eexists; split; [reflexivity|].
  all: intros; repeat match goal with H : _ = Some _ |- _ => rewrite H end.
  all: reflexivity.
Qed.

(** C6: exactly one variable is defined; it is called var and has type
    [NC_FLOAT]; and exactly one [nc_def_var_deflate] step is made, in the
    same dataset, with [NC_NOSHUFFLE], deflate on and level 4, for the id
    the library stored for that variable (for what [varid] held before
    when it stored none). *)
Theorem one_deflated_float_variable (l : locals) (u : indeterminate) (w : W) :
  paths_given l ->
  exists ncid ndims dimids r varid,
    vars_defined (run_trace l u w)
    = [(Nc_def_var ncid "var" NC_FLOAT ndims dimids, r)]
    /\ deflate_calls (run_trace l u w)
       = [Nc_def_var_deflate ncid varid NC_NOSHUFFLE 1 4]
    /\ (forall v, nc_out r = Some v -> varid = v)
    /\ (nc_out r = None -> varid = varid0 u).
Proof.
  intros Hp. exec_run l.
  all: views.
  all: do 5 eexists; split; [reflexivity|]; split; [reflexivity|].
  all: split; intros; match goal with H : nc_out _ = _ |- _ => rewrite H end;
       reflexivity.
Qed.

(** ** Further properties of runs *)

Lemma nc_report_printf (tst : string) (status : Z) :
  nc_report tst status = EPrintf (report_format status) (report_args tst status).
Proof.
  unfold nc_report, report_format, report_args.
  destruct (status =? NC_NOERR); reflexivity.
Qed.

Lemma print_all_run (lines : list string) :
  forall s : state W,
    print_all lines s
    = (Done tt, State (world s) (trace s ++ map (fun t => EPrintf t []) lines)).
Proof.
  induction lines as [|t lines IH]; intros s; simpl.
  - rewrite app_nil_r. destruct s; reflexivity.
  - unfold bind, printf, emit. rewrite IH. simpl. now rewrite <- app_assoc.
Qed.

Lemma usage_run {A : Type} (s : state W) :
  @usage W A s = (Exited (-1), State (world s) (trace s ++ usage_events)).
Proof.
  unfold usage, bind. rewrite print_all_run. reflexivity.
Qed.

Lemma set_option_known (o : getopt_result) (l : locals) (s : state W) :
  is_unknown o = false ->
  set_option o l s
  = (Done (Locals
       (match pick_i o with Some v => v | None => inputfile l end)
       (match pick_o o with Some v => v | None => outputfile l end)
       (match pick_x o with Some v => v | None => nx l end)
       (match pick_y o with Some v => v | None => ny l end)
       (match pick_z o with Some v => v | None => nz l end)
       (match pick_w o with Some v => v | None => wsize l end)
       (match pick_m o with Some v => v | None => issigned l end)
       (match pick_v o with Some v => v | None => verbose l end)
       (match pick_l o with Some v => v | None => endianness l end)
       (match pick_s o with Some v => v | None => scale l end)), s).
Proof.
  destruct o; intros H; try discriminate H; destruct l; reflexivity.
Qed.

Lemma parse_options_known (opts : list getopt_result) :
  existsb is_unknown opts = false ->
  forall (l : locals) (s : state W),
    parse_options opts l s
    = (Done (Locals
         (last_value pick_i opts (inputfile l)) (last_value pick_o opts (outputfile l))
         (last_value pick_x opts (nx l)) (last_value pick_y opts (ny l))
         (last_value pick_z opts (nz l)) (last_value pick_w opts (wsize l))
         (last_value pick_m opts (issigned l)) (last_value pick_v opts (verbose l))
         (last_value pick_l opts (endianness l)) (last_value pick_s opts (scale l))), s).
Proof.
  induction opts as [|o opts IH]; intros H l s; cbn [parse_options existsb] in *.
  - destruct l; reflexivity.
  - apply orb_false_iff in H. destruct H as [Ho Hopts].
    unfold bind. rewrite (set_option_known o l s Ho), (IH Hopts). reflexivity.
Qed.


Lemma run_without_paths (l : locals) (u : indeterminate) (s : state W) :
  both_paths l = false ->
  run l u s = (Exited (-1), State (world s) (trace s ++ usage_events)).
Proof.
  unfold both_paths, run. intros H. apply negb_false_iff in H. rewrite H.
  unfold when at 1. unfold bind at 1. now rewrite usage_run.
Qed.



Lemma main_run_parsed (opts : list getopt_result) (u : indeterminate) (s : state W) :
  existsb is_unknown opts = false -> main opts u s = run (parsed opts) u s.
Proof.
  intros H. unfold main, bind at 1.
  rewrite (parse_options_known opts H initial_locals s). reflexivity.
Qed.

Lemma last_value_app {A : Type} (pick : getopt_result -> option A)
    (pre post : list getopt_result) (d : A) :
  last_value pick (pre ++ post) d = last_value pick post (last_value pick pre d).
Proof. unfold last_value. apply fold_left_app. Qed.

Lemma last_value_none {A : Type} (pick : getopt_result -> option A)
    (opts : list getopt_result) :
  (forall o, In o opts -> pick o = None) ->
  forall d, last_value pick opts d = d.
Proof.
  induction opts as [|o opts IH]; intros H d; [reflexivity|].
  unfold last_value in *. simpl. rewrite (H o) by (now left).
  apply IH. intros; apply H; now right.
Qed.

Lemma substring_all (s : string) :
  forall n : nat, (String.length s <= n)%nat -> substring 0 n s = s.
Proof.
  induction s as [|c s IH]; intros n Hn.
  - destruct n; reflexivity.
  - destruct n; simpl in *; [lia|]. rewrite IH by lia. reflexivity.
Qed.

Lemma last_value_short_i (opts : list getopt_result) :
  forallb short_path opts = true ->
  forall d, last_value pick_i opts d = last_value given_i opts d.
Proof.
  unfold last_value.
  induction opts as [|o opts IH]; intros H d; [reflexivity|].
  simpl in H. apply andb_true_iff in H. destruct H as [Ho Hopts].
  simpl. rewrite <- (IH Hopts). f_equal.
  destruct o; try reflexivity. simpl in *. unfold strncpy_256.
  apply Nat.ltb_lt in Ho. rewrite substring_all by lia. reflexivity.
Qed.

Lemma last_value_short_o (opts : list getopt_result) :
  forallb short_path opts = true ->
  forall d, last_value pick_o opts d = last_value given_o opts d.
Proof.
  unfold last_value.
  induction opts as [|o opts IH]; intros H d; [reflexivity|].
  simpl in H. apply andb_true_iff in H. destruct H as [Ho Hopts].
  simpl. rewrite <- (IH Hopts). f_equal.
  destruct o; try reflexivity. simpl in *. unfold strncpy_256.
  apply Nat.ltb_lt in Ho. rewrite substring_all by lia. reflexivity.
Qed.

Lemma parsed_settings (opts : list getopt_result) :
  forallb short_path opts = true -> parsed opts = settings opts.
Proof.
  intros H. unfold parsed, settings.
  now rewrite (last_value_short_i opts H), (last_value_short_o opts H).
Qed.

(** X6: when no option is unknown and every path given is shorter than 256
    characters, the option loop prints nothing, calls nothing and ends with
    every setting at the value of its last occurrence on the command line,
    paths unchanged, or at its default; [main] then goes on as [run] on
    those settings. *)
Theorem option_loop_last_wins (opts : list getopt_result) (u : indeterminate)
    (s : state W) :
  existsb is_unknown opts = false ->
  forallb short_path opts = true ->
  parse_options opts initial_locals s = (Done (settings opts), s)
  /\ main opts u s = run (settings opts) u s
  /\ (forall (A : Type) (pick : getopt_result -> option A) pre o v post d,
        opts = pre ++ o :: post -> pick o = Some v ->
        (forall o', In o' post -> pick o' = None) ->
        last_value pick opts d = v)
  /\ (forall (A : Type) (pick : getopt_result -> option A) d,
        (forall o, In o opts -> pick o = None) -> last_value pick opts d = d).
Proof.
  intros H Hshort. rewrite <- (parsed_settings opts Hshort).
  split; [|split; [|split]].
  - exact (parse_options_known opts H initial_locals s).
  - now apply main_run_parsed.
  - intros A pick pre o v post d -> Ho Hpost.
    rewrite last_value_app. change (o :: post) with ([o] ++ post).
    rewrite last_value_app, (last_value_none pick post Hpost).
    unfold last_value. simpl. now rewrite Ho.
  - intros A pick d Hnone. now apply last_value_none.
Qed.





Lemma mallocs_report (data : Z -> double) (nx ny nz : Z) :
  mallocs (print_statistics data nx ny nz [] ++ [EFree]) = [].
Proof.
  rewrite print_statistics_lines. unfold mallocs. rewrite flat_map_app. simpl.
  induction (counters (Z.to_nat nz) 0) as [|k l IH]; simpl; [reflexivity | exact IH].
Qed.

Lemma frees_report (data : Z -> double) (nx ny nz : Z) :
  frees (print_statistics data nx ny nz [] ++ [EFree]) = 1%nat.
Proof.
  rewrite print_statistics_lines. unfold frees. rewrite filter_app. simpl.
  induction (counters (Z.to_nat nz) 0) as [|k l IH]; simpl; [reflexivity | exact IH].
Qed.

Lemma mallocs_cons (e : event) (t : list event) :
  mallocs (e :: t) = malloc_event e ++ mallocs t.
Proof. reflexivity. Qed.

Lemma frees_cons (e : event) (t : list event) :
  frees (e :: t) = ((if is_free e then 1 else 0) + frees t)%nat.
Proof. unfold frees. simpl. destruct (is_free e); reflexivity. Qed.

Lemma ends_with_app (a b : list event) : ends_with (a ++ b) b.
Proof. now exists a. Qed.

Lemma malloc_size_exact (nx ny nz : Z) :
  grid_fits nx ny nz ->
  (size_of_int (Int.mul (Int.mul nx ny) nz) * sizeof_float) mod size_t_modulus
  = 4 * (nx * ny * nz).
Proof.
  intros Hg. destruct (grid_fits_bounds _ _ _ Hg) as (Hx & Hy & Hz & Hxy).
  destruct Hg as (Hx1 & Hy1 & Hz1 & Hfit).
  unfold Int.mul, Int.max_signed in *.
  assert (R : forall z, 0 <= z <= 2147483647 -> Int.wrap z = z).
  { intros z Hz'. apply wrap_in_range.
    unfold Int.in_range, Int.min_signed, Int.max_signed. lia. }
  rewrite (R (nx * ny)) by nia. rewrite (R (nx * ny * nz)) by nia.
  unfold size_of_int, sizeof_float, size_t_modulus.
  rewrite (Z.mod_small (nx * ny * nz)) by nia.
  rewrite Z.mod_small by nia. lia.
Qed.

Ltac plain :=
  rewrite ?nc_report_printf.

(** X9: with both paths given the buffer is allocated once, before the
    decoder is called, with [4*nx*ny*nz] bytes when the grid fits an [int];
    it is freed once, as the last event of the run.  Without the paths
    nothing is allocated or freed. *)
Theorem buffer_allocated_once_freed_last (l : locals) (u : indeterminate) (w : W) :
  (paths_given l ->
   exists size,
     mallocs (run_trace l u w) = [size]
     /\ (grid_fits (nx l) (ny l) (nz l) -> size = 4 * (nx l * ny l * nz l))
     /\ mallocs (after_decoder (run_trace l u w)) = []
     /\ frees (run_trace l u w) = 1%nat
     /\ ends_with (run_trace l u w) [EFree])
  /\ (~ paths_given l ->
      mallocs (run_trace l u w) = [] /\ frees (run_trace l u w) = 0%nat).
Proof.
  split.
  - intros Hp. exec_run l; plain.
    all: eexists; cbn [after_decoder].
    all: repeat rewrite mallocs_cons; repeat rewrite frees_cons;
         rewrite mallocs_report, frees_report; cbn [malloc_event is_free app Nat.add].
    all: split; [reflexivity|].
    all: split; [apply malloc_size_exact|].
    all: split; [reflexivity|].
    all: split; [reflexivity|].
    all: repeat lazymatch goal with
         | |- ends_with (_ :: _) _ => apply ends_with_cons
         | |- ends_with (_ ++ _) _ => apply ends_with_app
         end.
  - unfold paths_given, run_trace. intros Hp.
    rewrite run_without_paths; [split; reflexivity|].
    unfold both_paths.
    destruct (is_empty (inputfile l)); [reflexivity|].
    destruct (is_empty (outputfile l)); [reflexivity|].
    exfalso. apply Hp. split; reflexivity.
Qed.

(** X10: the first netCDF step is [nc_create] on the output path, and
    every later step is addressed to the id the library stored at that
    step, or to what [ncid] held before when it stored none. *)
Theorem every_step_uses_the_created_ncid (l : locals) (u : indeterminate) (w : W) :
  paths_given l ->
  exists r,
    hd_error (nc_events (run_trace l u w))
    = Some (Nc_create (outputfile l) (Z.lor NC_WRITE NC_NETCDF4), r)
    /\ tl (nc_calls (run_trace l u w)) <> []
    /\ (forall v, nc_out r = Some v ->
        Forall (fun c => call_ncid c = Some v) (tl (nc_calls (run_trace l u w))))
    /\ (nc_out r = None ->
        Forall (fun c => call_ncid c = Some (ncid0 u))
               (tl (nc_calls (run_trace l u w)))).
Proof.
  intros Hp. exec_run l.
  all: views.
  all: eexists; split; [reflexivity|]; split; [discriminate|].
  all: split; intros; match goal with H : nc_out _ = _ |- _ => rewrite H end;
       repeat constructor.
Qed.

(** X11: the buffer written by the one [nc_put_var] step is the buffer as
    [read_geogrid] left it, the variable written is the one whose id the
    library stored at [nc_def_var] (what [varid] held before when it stored
    none), in the same dataset, and the statistics are those of that same
    buffer. *)
Theorem decoded_buffer_is_written_and_summarised (l : locals) (u : indeterminate) (w : W) :
  paths_given l ->
  exists rg ncid ndims dimids r varid,
    decoder_calls (run_trace l u w) = [(decoder_args l u, rg)]
    /\ vars_defined (run_trace l u w)
       = [(Nc_def_var ncid "var" NC_FLOAT ndims dimids, r)]
    /\ put_calls (run_trace l u w)
       = [Nc_put_var ncid varid (rg_array_after rg)]
    /\ (forall v, nc_out r = Some v -> varid = v)
    /\ (nc_out r = None -> varid = varid0 u)
    /\ ends_with (run_trace l u w)
         (print_statistics (rg_array_after rg) (nx l) (ny l) (nz l) [] ++ [EFree]).
Proof.
  intros Hp. exec_run l.
  all: unfold put_calls; views.
  all: do 6 eexists; split; [reflexivity|]; split; [reflexivity|];
       split; [reflexivity|].
  all: split; [intros v Hv; rewrite Hv; reflexivity|].
  all: split; [intros Hv; rewrite Hv; reflexivity | finishes].
Qed.

Ltac exec_call_goal :=
  match goal with
  | |- context [read_geogrid ?a ?w] =>
      let r := fresh "rg" in let w' := fresh "w" in
      destruct (read_geogrid a w) as [r w']; cbv beta iota
  | |- context [nc_library ?c ?w] =>
      let r := fresh "r" in let w' := fresh "w" in
      destruct (nc_library c w) as [r w']; cbv beta iota
  end.

(** X8: [--verbose] only adds nine lines of output at the start of the
    run: what follows, and the exit code, are those of the same run
    without it. *)
Theorem verbose_only_adds_lines (l : locals) (u : indeterminate) (w : W) :
  paths_given l ->
  (verbose l <> 0 ->
     skipn 9 (run_trace l u w) = run_trace (quiet l) u w
     /\ forallb is_printf (firstn 9 (run_trace l u w)) = true)
  /\ (verbose l = 0 -> run_trace l u w = run_trace (quiet l) u w)
  /\ run_result l u w = run_result (quiet l) u w.
Proof.
  intros [H1 H2]. unfold run_trace, run_result, run.
  cbn [inputfile outputfile nx ny nz wsize issigned verbose endianness scale quiet].
  rewrite H1, H2. cbn [Z.eqb].
  destruct (verbose l =? 0) eqn:Hv; destruct (nz l >? 1);
    cbv [bind ret emit printf exit when NC call_nc call_read_geogrid
         call_print_statistics fst snd world trace negb orb];
    repeat exec_call_goal; cbn [app];
    repeat rewrite (print_statistics_app _ _ _ _ (_ :: _));
    rewrite <- ?app_assoc; cbn [app skipn firstn forallb is_printf andb].
  all: split; [intros Hnz | split; [intros Hz|reflexivity] ].
  all: try (apply Z.eqb_eq in Hv; contradiction).
  all: try (apply Z.eqb_neq in Hv; contradiction).
  all: try reflexivity.
  all: split; reflexivity.
Qed.

End RunProperties.

(** * Further properties of the statistics *)

Lemma SFltb_trans (a b c : spec_float) :
  SFltb a b = true -> SFltb b c = true -> SFltb a c = true.
Proof.
  unfold SFltb.
  destruct a as [sa|sa| |sa ma ea], b as [sb|sb| |sb mb eb], c as [sc|sc| |sc mc ec];
    try destruct sa; try destruct sb; try destruct sc; simpl;
    try congruence;
    change (Pos.compare_cont Eq ma mb) with (Pos.compare ma mb);
    change (Pos.compare_cont Eq mb mc) with (Pos.compare mb mc);
    change (Pos.compare_cont Eq ma mc) with (Pos.compare ma mc);
    destruct (Z.compare_spec ea eb), (Z.compare_spec eb ec), (Z.compare_spec ea ec);
    simpl; try congruence; try lia;
    destruct (Pos.compare_spec ma mb), (Pos.compare_spec mb mc),
      (Pos.compare_spec ma mc); simpl; try congruence; try lia.
Qed.

Lemma SFltb_irrefl (a : spec_float) : SFltb a a = false.
Proof.
  unfold SFltb. destruct a as [sa|sa| |sa ma ea]; try destruct sa; simpl;
    try reflexivity;
    rewrite Z.compare_refl;
    change (Pos.compare_cont Eq ma ma) with (Pos.compare ma ma);
    rewrite Pos.compare_refl; reflexivity.
Qed.


Lemma ltb_trans (a b c : double) :
  PrimFloat.ltb a b = true -> PrimFloat.ltb b c = true -> PrimFloat.ltb a c = true.
Proof. rewrite !ltb_spec. apply SFltb_trans. Qed.

Lemma ltb_irrefl (a : double) : PrimFloat.ltb a a = false.
Proof. rewrite ltb_spec. apply SFltb_irrefl. Qed.







Lemma accumulate_all_snoc (l : list double) (d : double) (a : accum) :
  accumulate_all (l ++ [d]) a = accumulate d (accumulate_all l a).
Proof. unfold accumulate_all. now rewrite fold_left_app. Qed.

Lemma accumulate_all_least (l : list double) :
  least_or_zero l (acc_min (accumulate_all l accum_init)).
Proof.
  induction l as [|d l IH] using rev_ind.
  - split; [intros x []| now left].
  - rewrite accumulate_all_snoc. destruct IH as [Hlow Hat].
    set (m := acc_min (accumulate_all l accum_init)) in *.
    unfold accumulate; cbn [acc_min]. fold m.
    destruct (PrimFloat.ltb d m) eqn:E; split.
    + intros x Hx. apply in_app_or in Hx. destruct Hx as [Hx|[<-|[]]].
      * destruct (PrimFloat.ltb x d) eqn:Exd; [|reflexivity].
        rewrite <- (Hlow x Hx). symmetry. exact (ltb_trans _ _ _ Exd E).
      * apply ltb_irrefl.
    + right. split; [apply in_or_app; right; now left|].
      destruct Hat as [Hz|[_ Hneg]].
      * now rewrite <- Hz.
      * exact (ltb_trans _ _ _ E Hneg).
    + intros x Hx. apply in_app_or in Hx. destruct Hx as [Hx|[<-|[]]].
      * now apply Hlow.
      * exact E.
    + destruct Hat as [Hz|[Hin Hneg]]; [now left|].
      right. split; [apply in_or_app; now left | exact Hneg].
Qed.

Lemma accumulate_all_greatest (l : list double) :
  greatest_or_zero l (acc_max (accumulate_all l accum_init)).
Proof.
  induction l as [|d l IH] using rev_ind.
  - split; [intros x []| now left].
  - rewrite accumulate_all_snoc. destruct IH as [Hup Hat].
    set (m := acc_max (accumulate_all l accum_init)) in *.
    unfold accumulate, gtb; cbn [acc_max]. fold m.
    destruct (PrimFloat.ltb m d) eqn:E; split.
    + intros x Hx. apply in_app_or in Hx. destruct Hx as [Hx|[<-|[]]].
      * destruct (PrimFloat.ltb d x) eqn:Edx; [|reflexivity].
        rewrite <- (Hup x Hx). symmetry. exact (ltb_trans _ _ _ E Edx).
      * apply ltb_irrefl.
    + right. split; [apply in_or_app; right; now left|].
      destruct Hat as [Hz|[_ Hpos]].
      * now rewrite <- Hz.
      * exact (ltb_trans _ _ _ Hpos E).
    + intros x Hx. apply in_app_or in Hx. destruct Hx as [Hx|[<-|[]]].
      * now apply Hup.
      * exact E.
    + destruct Hat as [Hz|[Hin Hpos]]; [now left|].
      right. split; [apply in_or_app; now left | exact Hpos].
Qed.










Lemma for_lt_nonpos {S : Type} (n : Z) (body : Z -> S -> S) (s : S) :
  n <= 0 -> for_lt n body s = s.
Proof.
  intros H. unfold for_lt. replace (Z.to_nat n) with 0%nat by lia. reflexivity.
Qed.

Lemma level_accum_empty (data : Z -> double) (nx ny k : Z) :
  nx <= 0 \/ ny <= 0 -> level_accum data nx ny k = accum_init.
Proof.
  intros [H|H]; unfold level_accum.
  - unfold for_lt at 1.
    apply (for_from_invariant (fun a => a = accum_init)); [|reflexivity].
    intros j a ->. now apply for_lt_nonpos.
  - now apply for_lt_nonpos.
Qed.

(** X4: with [nz <= 0] nothing is printed; with [nx <= 0] or [ny <= 0] no
    sample is read and every level is reported with minimum and maximum 0.0
    and mean [0.0 / (nx*ny)], which is NaN when [nx] or [ny] is 0. *)
Theorem empty_grid_report (data : Z -> double) (nx ny nz : Z) (out : list event) :
  (nz <= 0 -> print_statistics data nx ny nz out = out)
  /\ (Int.in_range nz -> nx <= 0 \/ ny <= 0 ->
      print_statistics data nx ny nz out
      = out ++ map (fun k => EPrintf stats_format
                      [AInt (k + 1);
                       ADbl (PrimFloat.div 0 (double_of_int (Int.mul nx ny)));
                       ADbl 0%float; ADbl 0%float])
                   (zrange nz))
  /\ (nx = 0 \/ ny = 0 ->
      PrimFloat.is_nan (PrimFloat.div 0 (double_of_int (Int.mul nx ny))) = true).
Proof.
  split; [|split].
  - intros H. unfold print_statistics. now apply for_lt_nonpos.
  - intros [_ Hz] Hxy.
    rewrite print_statistics_lines, counters_zrange by exact Hz.
    f_equal. apply map_ext_in. intros k Hk. apply in_zrange in Hk.
    unfold stats_line. rewrite level_accum_empty by exact Hxy.
    now rewrite (level_number nz k).
  - intros [->| ->]; unfold Int.mul; [|rewrite Z.mul_0_r]; reflexivity.
Qed.

Lemma seq_offset (k len : nat) :
  forall s, seq (k + s) len = map (fun i => (k + i)%nat) (seq s len).
Proof.
  induction len as [|len IH]; intros s; simpl; [reflexivity|].
  f_equal. rewrite <- IH. f_equal. lia.
Qed.

Lemma zrange_add (m n : Z) :
  0 <= m -> 0 <= n -> zrange (m + n) = zrange m ++ map (fun i => m + i) (zrange n).
Proof.
  intros Hm Hn. unfold zrange.
  replace (Z.to_nat (m + n)) with (Z.to_nat m + Z.to_nat n)%nat by lia.
  rewrite seq_app, map_app. f_equal. simpl.
  rewrite <- (Nat.add_0_r (Z.to_nat m)) at 1.
  rewrite seq_offset, !map_map.
  apply map_ext. intros i. lia.
Qed.

Lemma zrange_mul (a b : Z) :
  0 <= a -> 0 <= b ->
  flat_map (fun j => map (fun i => j * b + i) (zrange b)) (zrange a) = zrange (a * b).
Proof.
  intros Ha Hb. pattern a. apply natlike_ind; [reflexivity| |exact Ha].
  intros n Hn IH. unfold Z.succ.
  assert (Hz : zrange (n + 1) = zrange n ++ [n]).
  { rewrite zrange_add by lia. simpl. now rewrite Z.add_0_r. }
  rewrite Hz, flat_map_app, IH. simpl. rewrite app_nil_r.
  replace ((n + 1) * b) with (n * b + b) by lia.
  rewrite zrange_add by nia. reflexivity.
Qed.

Lemma level_samples_subscripts (data : Z -> double) (nx ny k : Z) :
  level_samples data nx ny k = map data (level_subscripts nx ny k).
Proof.
  unfold level_samples, level_subscripts.
  induction (zrange ny) as [|j l IH]; simpl; [reflexivity|].
  now rewrite map_app, map_map, IH.
Qed.

Lemma flat_map_ext_in {A B : Type} (f g : A -> list B) (l : list A) :
  (forall x, In x l -> f x = g x) -> flat_map f l = flat_map g l.
Proof.
  induction l as [|x l IH]; intros H; simpl; [reflexivity|].
  rewrite H by (now left). f_equal. apply IH. intros; apply H; now right.
Qed.

Lemma level_subscripts_exact (nx ny nz k : Z) :
  grid_fits nx ny nz -> 0 <= k < nz ->
  level_subscripts nx ny k = map (fun t => k * (nx * ny) + t) (zrange (ny * nx)).
Proof.
  intros Hg Hk. unfold level_subscripts.
  assert (Hpos : 1 <= nx /\ 1 <= ny) by (destruct Hg as (? & ? & _); lia).
  rewrite <- zrange_mul by lia.
  assert (E : forall l : list Z,
             map (fun t => k * (nx * ny) + t)
                 (flat_map (fun j => map (fun i => j * nx + i) (zrange nx)) l)
             = flat_map (fun j => map (fun i => k * nx * ny + j * nx + i) (zrange nx)) l).
  { induction l as [|j l IH]; simpl; [reflexivity|].
    rewrite map_app, IH, map_map. f_equal. apply map_ext. intros i. lia. }
  rewrite E. apply flat_map_ext_in. intros j Hj. apply in_zrange in Hj.
  apply map_ext_in. intros i Hi. apply in_zrange in Hi.
  exact (proj1 (sample_index_exact nx ny nz k j i Hg Hk Hj Hi)).
Qed.

Lemma level_samples_cells (data : Z -> double) (nx ny nz k : Z) :
  grid_fits nx ny nz -> 0 <= k < nz ->
  level_samples data nx ny k = level_cells data nx ny k.
Proof.
  intros Hg Hk. unfold level_cells.
  rewrite level_samples_subscripts, (level_subscripts_exact nx ny nz k Hg Hk).
  rewrite map_map, (Z.mul_comm ny nx). reflexivity.
Qed.

(** C7: for a grid whose size fits an [int], the report is exactly one line
    per level, levels in ascending order and numbered from 1, each line
    being level, mean, minimum, maximum in that order.  The statistics of
    level [k] are those of the cells [k*nx*ny], ..., [(k+1)*nx*ny - 1] of
    the buffer: the mean is their left-to-right double-precision sum,
    started from 0.0, divided by their number [nx*ny]; the minimum and the
    maximum bound them and are 0.0 or one of them. *)
Theorem report_lines (data : Z -> double) (nx ny nz : Z) :
  grid_fits nx ny nz ->
  print_statistics data nx ny nz []
  = map (fun k =>
           EPrintf ("%i %lf %lf %lf" ++ nl)
             [AInt (k + 1);
              ADbl (PrimFloat.div (fsum (level_cells data nx ny k))
                                  (double_of_int (nx * ny)));
              ADbl (acc_min (accumulate_all (level_cells data nx ny k) accum_init));
              ADbl (acc_max (accumulate_all (level_cells data nx ny k) accum_init))])
        (zrange nz)
  /\ forall k,
       List.length (level_cells data nx ny k) = Z.to_nat (nx * ny)
       /\ least_or_zero (level_cells data nx ny k)
            (acc_min (accumulate_all (level_cells data nx ny k) accum_init))
       /\ greatest_or_zero (level_cells data nx ny k)
            (acc_max (accumulate_all (level_cells data nx ny k) accum_init)).
Proof.
  intros Hg. destruct (grid_fits_bounds _ _ _ Hg) as (Hx & Hy & Hz & Hxy).
  split.
  - rewrite print_statistics_lines, counters_zrange by exact Hz. simpl.
    apply map_ext_in. intros k Hk. apply in_zrange in Hk.
    unfold stats_line, stats_format.
    rewrite (level_number nz k), level_accum_fold by assumption.
    rewrite accumulate_all_avg, (level_samples_cells data nx ny nz k Hg Hk).
    unfold Int.mul. rewrite wrap_in_range; [reflexivity|].
    destruct Hg as (Hx1 & Hy1 & _).
    unfold Int.in_range, Int.min_signed, Int.max_signed in *. nia.
  - intros k. split; [|split].
    + unfold level_cells. now rewrite length_map, length_zrange.
    + apply accumulate_all_least.
    + apply accumulate_all_greatest.
Qed.

(** X5: for a grid that fits an [int], the subscripts read level after
    level are exactly 0, 1, ..., [nx*ny*nz - 1] in that order: every cell
    of the buffer enters the statistics of exactly one level, once. *)
Theorem every_cell_is_read_once (data : Z -> double) (nx ny nz : Z) :
  grid_fits nx ny nz ->
  flat_map (level_subscripts nx ny) (zrange nz) = zrange (nx * ny * nz)
  /\ flat_map (level_samples data nx ny) (zrange nz) = map data (zrange (nx * ny * nz)).
Proof.
  intros Hg.
  assert (Hpos : 1 <= nx /\ 1 <= ny /\ 1 <= nz) by (destruct Hg as (? & ? & ? & _); lia).
  assert (E : flat_map (level_subscripts nx ny) (zrange nz) = zrange (nx * ny * nz)).
  { replace (nx * ny * nz) with (nz * (ny * nx)) by lia.
    rewrite <- zrange_mul by nia.
    apply flat_map_ext_in. intros k Hk. apply in_zrange in Hk.
    rewrite (level_subscripts_exact nx ny nz k Hg Hk).
    apply map_ext. intros t. lia. }
  split; [exact E|].
  rewrite <- E. clear E.
  induction (zrange nz) as [|k l IH]; simpl; [reflexivity|].
  rewrite map_app, IH, level_samples_subscripts. reflexivity.
Qed.

(** * The statements on the example inputs *)

(** ** Statistics *)


Lemma reported_min_max_straddle_zero_witness :
  In (EPrintf stats_format [AInt 1; ADbl 25%float; ADbl 0%float; ADbl 40%float])
     (print_statistics tile_2x2 2 2 1 [])
  /\ exists (level : Z) (mean mn mx : double),
       EPrintf stats_format [AInt 1; ADbl 25%float; ADbl 0%float; ADbl 40%float]
       = EPrintf stats_format [AInt level; ADbl mean; ADbl mn; ADbl mx]
       /\ PrimFloat.leb mn 0 = true
       /\ PrimFloat.leb 0 mx = true.
Proof.
  assert (Hin : In (EPrintf stats_format
                      [AInt 1; ADbl 25%float; ADbl 0%float; ADbl 40%float])
                   (print_statistics tile_2x2 2 2 1 []))
    by (left; reflexivity).
  split; [exact Hin|].
  exact (proj2 (reported_min_max_straddle_zero tile_2x2 2 2 1) _ Hin).
Defined.

(** Two levels of two cells, 10, 20 and 30, 40: [1 15 0 20] then
    [2 35 0 40]. *)
Lemma report_lines_witness :
  grid_fits 2 1 2
  /\ print_statistics tile_2x2 2 1 2 []
     = [EPrintf ("%i %lf %lf %lf" ++ nl)
          [AInt 1; ADbl 15%float; ADbl 0%float; ADbl 20%float];
        EPrintf ("%i %lf %lf %lf" ++ nl)
          [AInt 2; ADbl 35%float; ADbl 0%float; ADbl 40%float]].
Proof.
  assert (Hg : grid_fits 2 1 2)
    by (unfold grid_fits, Int.max_signed; lia).
  split; [exact Hg|].
  exact (proj1 (report_lines tile_2x2 2 1 2 Hg)).
Defined.

Lemma subscripts_within_buffer_witness :
  grid_fits 2 2 3
  /\ sample_index 2 2 2 1 1 = 2 * 2 * 2 + 1 * 2 + 1
  /\ 0 <= sample_index 2 2 2 1 1 < 2 * 2 * 3.
Proof.
  assert (Hg : grid_fits 2 2 3)
    by (unfold grid_fits, Int.max_signed; lia).
  split; [exact Hg|].
  apply (proj1 (subscripts_within_buffer 2 2 3 Hg) 2 1 1); lia.
Defined.

(** ** Runs *)

Lemma example_paths_given : paths_given example_locals.
Proof. split; reflexivity. Defined.

Lemma example_paths_given_3d : paths_given example_locals_3d.
Proof. split; reflexivity. Defined.

(** Every netCDF step fails with -33 and all of them are attempted. *)
Lemma writer_steps_all_attempted_witness :
  paths_given example_locals_3d
  /\ map step_name
       (nc_calls (run_trace (ext := fixed_externals tile_2x2 0 (-33))
                            example_locals_3d example_indeterminate 0))
     = ["nc_create"%string; "nc_def_dim"%string; "nc_def_dim"%string;
        "nc_def_dim"%string; "nc_def_var"%string; "nc_def_var_deflate"%string;
        "nc_enddef"%string; "nc_put_var"%string; "nc_close"%string]
  /\ run_result (ext := fixed_externals tile_2x2 0 (-33))
                example_locals_3d example_indeterminate 0 = Exited 0.
Proof.
  split; [exact example_paths_given_3d|].
  destruct (writer_steps_all_attempted (ext := fixed_externals tile_2x2 0 (-33))
              example_locals_3d example_indeterminate 0 example_paths_given_3d)
    as (Hsteps & _ & _ & Hexit).
  split; [exact Hsteps | exact Hexit].
Defined.

(** C2, as stated, fails: the decoder reports status 1, and the eight steps
    of the dataset writer and the statistics line follow all the same. *)
Lemma failed_decode_still_writes :
  let tr := run_trace (ext := fixed_externals tile_2x2 1 NC_NOERR)
                      example_locals example_indeterminate 0 in
  map (fun ar => rg_status_after (snd ar)) (decoder_calls tr) = [1]
  /\ map step_name (nc_calls (after_decoder tr))
     = ["nc_create"%string; "nc_def_dim"%string; "nc_def_dim"%string;
        "nc_def_var"%string; "nc_def_var_deflate"%string; "nc_enddef"%string;
        "nc_put_var"%string; "nc_close"%string]
  /\ stats_lines (after_decoder tr)
     = [EPrintf stats_format [AInt 1; ADbl 25%float; ADbl 0%float; ADbl 40%float]]
  /\ ~ (nc_calls tr = [] /\ stats_lines tr = []).
Proof.
  vm_compute. repeat split.
  intros [H _]. discriminate H.
Qed.

Lemma decode_status_is_only_printed_witness :
  paths_given example_locals
  /\ exists rg,
       decoder_calls (run_trace (ext := fixed_externals tile_2x2 1 NC_NOERR)
                                example_locals example_indeterminate 0)
       = [(decoder_args example_locals example_indeterminate, rg)]
       /\ run_result (ext := fixed_externals tile_2x2 1 NC_NOERR)
                     example_locals example_indeterminate 0 = Exited 0.
Proof.
  split; [exact example_paths_given|].
  destruct (decode_status_is_only_printed (ext := fixed_externals tile_2x2 1 NC_NOERR)
              example_locals example_indeterminate 0 example_paths_given)
    as (rg & Hcall & _ & _ & _ & Hexit).
  exists rg. split; [exact Hcall | exact Hexit].
Defined.

(** C3, as stated, fails: with [nz = 2] the dimensions are defined in the
    order x, y, z and not z, y, x; with [nz = 1] in the order x, y and not
    y, x. *)
Lemma dimensions_are_defined_x_first :
  map fst (dims_defined (run_trace (ext := fixed_externals tile_2x2 0 NC_NOERR)
                                   example_locals_3d example_indeterminate 0))
  = ["x"%string; "y"%string; "z"%string]
  /\ map fst (dims_defined (run_trace (ext := fixed_externals tile_2x2 0 NC_NOERR)
                                      example_locals_3d example_indeterminate 0))
     <> ["z"%string; "y"%string; "x"%string]
  /\ map fst (dims_defined (run_trace (ext := fixed_externals tile_2x2 0 NC_NOERR)
                                      example_locals example_indeterminate 0))
     = ["x"%string; "y"%string]
  /\ map fst (dims_defined (run_trace (ext := fixed_externals tile_2x2 0 NC_NOERR)
                                      example_locals example_indeterminate 0))
     <> ["y"%string; "x"%string].
Proof.
  vm_compute. repeat split; intros H; discriminate H.
Qed.

Lemma dimensions_definition_order_witness :
  paths_given example_locals_3d
  /\ dims_defined (run_trace (ext := fixed_externals tile_2x2 0 NC_NOERR)
                             example_locals_3d example_indeterminate 0)
     = [("x"%string, 2); ("y"%string, 1); ("z"%string, 2)].
Proof.
  split; [exact example_paths_given_3d|].
  exact (dimensions_definition_order (ext := fixed_externals tile_2x2 0 NC_NOERR)
           example_locals_3d example_indeterminate 0 example_paths_given_3d).
Defined.

(** The reference library numbers the dimensions x, y, z as 1, 2, 3; the
    variable is defined over [3; 2; 1], that is over z, y, x. *)
Lemma variable_rank_witness :
  paths_given example_locals_3d /\ 1 < nz example_locals_3d
  /\ exists ncid dimids r,
       vars_defined (run_trace (ext := fixed_externals tile_2x2 0 NC_NOERR)
                               example_locals_3d example_indeterminate 0)
       = [(Nc_def_var ncid "var" NC_FLOAT 3 dimids, r)]
       /\ dimids = [3; 2; 1].
Proof.
  assert (Hnz : 1 < nz example_locals_3d) by (simpl; lia).
  split; [exact example_paths_given_3d|]. split; [exact Hnz|].
  destruct (proj1 (variable_rank (ext := fixed_externals tile_2x2 0 NC_NOERR)
                     example_locals_3d example_indeterminate 0
                     example_paths_given_3d) Hnz)
    as (ncid & dimids & r & Hvar & Hids).
  exists ncid, dimids, r. split; [exact Hvar|].
  apply Hids; reflexivity.
Defined.

(** The reference library stores the ids 0 for the dataset and 3 for the
    variable; the deflate step is for variable 3 of dataset 0. *)
Lemma one_deflated_float_variable_witness :
  paths_given example_locals
  /\ vars_defined (run_trace (ext := fixed_externals tile_2x2 0 NC_NOERR)
                             example_locals example_indeterminate 0)
     = [(Nc_def_var 0 "var" NC_FLOAT 2 [2; 1; -4], NcReply NC_NOERR (Some 3))]
  /\ deflate_calls (run_trace (ext := fixed_externals tile_2x2 0 NC_NOERR)
                              example_locals example_indeterminate 0)
     = [Nc_def_var_deflate 0 3 NC_NOSHUFFLE 1 4].
Proof.
  split; [exact example_paths_given|].
  destruct (one_deflated_float_variable (ext := fixed_externals tile_2x2 0 NC_NOERR)
              example_locals example_indeterminate 0 example_paths_given)
    as (ncid & ndims & dimids & r & varid & Hvar & Hdeflate & Hid & _).
  assert (Hrun : vars_defined (run_trace (ext := fixed_externals tile_2x2 0 NC_NOERR)
                                         example_locals example_indeterminate 0)
                 = [(Nc_def_var 0 "var" NC_FLOAT 2 [2; 1; -4],
                     NcReply NC_NOERR (Some 3))]) by reflexivity.
  split; [exact Hrun|].
  rewrite Hrun in Hvar.
  assert (Hr : r = NcReply NC_NOERR (Some 3)) by congruence.
  assert (Hncid : ncid = 0) by congruence.
  rewrite Hdeflate, Hncid, (Hid 3) by (rewrite Hr; reflexivity).
  reflexivity.
Defined.



(** ** Further properties *)


Lemma int_range_2 : Int.in_range 2.
Proof. unfold Int.in_range, Int.min_signed, Int.max_signed. lia. Defined.




(** No columns: two levels, each reported as NaN, 0.0, 0.0. *)
Lemma empty_grid_report_witness :
  Int.in_range 2 /\ (0 <= 0 \/ 2 <= 0)
  /\ print_statistics tile_2x2 0 2 2 []
     = [EPrintf stats_format [AInt 1; ADbl PrimFloat.nan; ADbl 0%float; ADbl 0%float];
        EPrintf stats_format [AInt 2; ADbl PrimFloat.nan; ADbl 0%float; ADbl 0%float]].
Proof.
  assert (H0 : 0 <= 0 \/ 2 <= 0) by (left; lia).
  split; [exact int_range_2|]. split; [exact H0|].
  exact (proj1 (proj2 (empty_grid_report tile_2x2 0 2 2 [])) int_range_2 H0).
Defined.

Lemma every_cell_is_read_once_witness :
  grid_fits 2 2 3
  /\ flat_map (level_subscripts 2 2) (zrange 3)
     = [0; 1; 2; 3; 4; 5; 6; 7; 8; 9; 10; 11].
Proof.
  assert (Hg : grid_fits 2 2 3)
    by (unfold grid_fits, Int.max_signed; lia).
  split; [exact Hg|].
  exact (proj1 (every_cell_is_read_once tile_2x2 2 2 3 Hg)).
Defined.

Lemma option_loop_last_wins_witness :
  existsb is_unknown zero_scale_options = false
  /\ forallb short_path zero_scale_options = true
  /\ parse_options (W := Z) zero_scale_options initial_locals (State 0 [])
     = (Done (Locals "tile.bin" "tile.nc" 2 2 1 4 0 0 BIG_ENDIAN 0%float),
        State 0 []).
Proof.
  assert (H : existsb is_unknown zero_scale_options = false) by reflexivity.
  assert (Hs : forallb short_path zero_scale_options = true) by reflexivity.
  split; [exact H|]. split; [exact Hs|].
  exact (proj1 (option_loop_last_wins (ext := fixed_externals tile_2x2 0 NC_NOERR)
                  zero_scale_options example_indeterminate (State 0 []) H Hs)).
Defined.


Lemma verbose_paths_given : paths_given verbose_locals.
Proof. split; reflexivity. Defined.

Lemma verbose_only_adds_lines_witness :
  paths_given verbose_locals /\ verbose verbose_locals <> 0
  /\ skipn 9 (run_trace (ext := fixed_externals tile_2x2 0 NC_NOERR)
                        verbose_locals example_indeterminate 0)
     = run_trace (ext := fixed_externals tile_2x2 0 NC_NOERR)
                 (quiet verbose_locals) example_indeterminate 0.
Proof.
  assert (Hv : verbose verbose_locals <> 0) by (simpl; lia).
  split; [exact verbose_paths_given|]. split; [exact Hv|].
  exact (proj1 (proj1 (verbose_only_adds_lines (ext := fixed_externals tile_2x2 0 NC_NOERR)
                         verbose_locals example_indeterminate 0
                         verbose_paths_given) Hv)).
Defined.

Lemma buffer_allocated_once_freed_last_witness :
  paths_given example_locals
  /\ exists size,
       mallocs (run_trace (ext := fixed_externals tile_2x2 0 NC_NOERR)
                          example_locals example_indeterminate 0) = [size]
       /\ size = 16
       /\ frees (run_trace (ext := fixed_externals tile_2x2 0 NC_NOERR)
                           example_locals example_indeterminate 0) = 1%nat.
Proof.
  assert (Hg : grid_fits (nx example_locals) (ny example_locals) (nz example_locals))
    by (unfold grid_fits, Int.max_signed; simpl; lia).
  split; [exact example_paths_given|].
  destruct (proj1 (buffer_allocated_once_freed_last
                     (ext := fixed_externals tile_2x2 0 NC_NOERR)
                     example_locals example_indeterminate 0) example_paths_given)
    as (size & Hm & Hsize & _ & Hf & _).
  exists size. split; [exact Hm|]. split; [exact (Hsize Hg) | exact Hf].
Defined.

Lemma same_ncid_map (v : Z) (calls : list nc_call) :
  Forall (fun c => call_ncid c = Some v) calls ->
  map call_ncid calls = map (fun _ => Some v) calls.
Proof.
  induction 1 as [|c cs Hc _ IH]; simpl; [reflexivity|].
  now rewrite Hc, IH.
Qed.

(** The reference library stores 0 as the id of the dataset: the seven
    later steps are all addressed to 0. *)
Lemma every_step_uses_the_created_ncid_witness :
  paths_given example_locals
  /\ hd_error (nc_events (run_trace (ext := fixed_externals tile_2x2 0 NC_NOERR)
                                    example_locals example_indeterminate 0))
     = Some (Nc_create "tile.nc" 4097, NcReply NC_NOERR (Some 0))
  /\ map call_ncid
       (tl (nc_calls (run_trace (ext := fixed_externals tile_2x2 0 NC_NOERR)
                                example_locals example_indeterminate 0)))
     = [Some 0; Some 0; Some 0; Some 0; Some 0; Some 0; Some 0].
Proof.
  split; [exact example_paths_given|].
  destruct (every_step_uses_the_created_ncid
              (ext := fixed_externals tile_2x2 0 NC_NOERR)
              example_locals example_indeterminate 0 example_paths_given)
    as (r & Hhd & _ & Hall & _).
  assert (Hrun : hd_error (nc_events (run_trace (ext := fixed_externals tile_2x2 0 NC_NOERR)
                                                example_locals example_indeterminate 0))
                 = Some (Nc_create "tile.nc" 4097, NcReply NC_NOERR (Some 0)))
    by reflexivity.
  split; [exact Hrun|].
  rewrite Hrun in Hhd.
  assert (Hr : r = NcReply NC_NOERR (Some 0)) by congruence.
  assert (H0 : nc_out r = Some 0) by (rewrite Hr; reflexivity).
  rewrite (same_ncid_map _ _ (Hall 0 H0)). reflexivity.
Defined.

(** The decoder reports a failure; the buffer it left is written all the
    same, to variable 3 of dataset 0, the ids the reference library
    stored. *)
Lemma decoded_buffer_is_written_and_summarised_witness :
  paths_given example_locals
  /\ vars_defined (run_trace (ext := fixed_externals tile_2x2 1 NC_NOERR)
                             example_locals example_indeterminate 0)
     = [(Nc_def_var 0 "var" NC_FLOAT 2 [2; 1; -4], NcReply NC_NOERR (Some 3))]
  /\ put_calls (run_trace (ext := fixed_externals tile_2x2 1 NC_NOERR)
                          example_locals example_indeterminate 0)
     = [Nc_put_var 0 3 tile_2x2].
Proof.
  split; [exact example_paths_given|].
  destruct (decoded_buffer_is_written_and_summarised
              (ext := fixed_externals tile_2x2 1 NC_NOERR)
              example_locals example_indeterminate 0 example_paths_given)
    as (rg & ncid & ndims & dimids & r & varid & Hdec & Hvar & Hput & Hid & _ & _).
  assert (Hrun : vars_defined (run_trace (ext := fixed_externals tile_2x2 1 NC_NOERR)
                                         example_locals example_indeterminate 0)
                 = [(Nc_def_var 0 "var" NC_FLOAT 2 [2; 1; -4],
                     NcReply NC_NOERR (Some 3))]) by reflexivity.
  assert (Hdrun : decoder_calls (run_trace (ext := fixed_externals tile_2x2 1 NC_NOERR)
                                           example_locals example_indeterminate 0)
                  = [(decoder_args example_locals example_indeterminate,
                      RgResult tile_2x2 1)]) by reflexivity.
  split; [exact Hrun|].
  rewrite Hrun in Hvar. rewrite Hdrun in Hdec.
  assert (Hr : r = NcReply NC_NOERR (Some 3)) by congruence.
  assert (Hncid : ncid = 0) by congruence.
  assert (Hrg : rg = RgResult tile_2x2 1) by congruence.
  rewrite Hput, Hncid, Hrg, (Hid 3) by (rewrite Hr; reflexivity).
  reflexivity.
Defined.
